(** * Classiq library notebooks: classical pre- and post-processing, and the
      shape of the quantum functions they declare.

    The repository holds notebooks (Python cells over the Classiq SDK) and one
    native Qmod file.  The classical arithmetic of the cells is embedded over
    exact rationals ([Q]) and reals ([R]); floating-point rounding is not part
    of the model, except for the measured overlap of the swap-test notebook,
    whose radicand cancels and where the rounding decides between a number
    and [nan]: there it is an explicit rounding function.  The quantum
    functions are embedded as builders of the list of SDK calls they emit,
    and the cells themselves as syntax trees. *)

From Stdlib Require Import String Ascii List ZArith QArith Qreals Reals Lia Lra Bool.
Import ListNotations.

Set Warnings "-register-all".

(** ** Numpy helpers used by the cells (exact arithmetic). *)

Module Np.

(** Python's builtin [sum]: starts from 0 and adds from the left. *)
Definition sumQ (l : list Q) : Q := fold_left Qplus l 0%Q.

Definition sumR (l : list R) : R := fold_left Rplus l 0%R.

(** [np.linspace(start, stop, num)]: [num] evenly spaced samples, both
    end points included; sample [i] is [i * step + start] with
    [step = (stop - start) / (num - 1)].  (Numpy then overwrites the last
    sample with [stop]; in exact arithmetic it already equals [stop].) *)
Definition linspace (start stop : Q) (num : nat) : list Q :=
    let step := ((stop - start) / inject_Z (Z.of_nat (num - 1)))%Q in
    map (fun i => (inject_Z (Z.of_nat i) * step + start)%Q) (seq 0 num).

(** Elementwise division of an array by a scalar. *)
Definition divide (a : list Q) (d : Q) : list Q := map (fun x => (x / d)%Q) a.

End Np.

(** ** The SDK boundary.

    A quantum variable is the list of wires it holds.  A [@qfunc] is run by
    the Python interpreter to build the body of a Qmod function: it is
    embedded as the list of SDK calls it emits.  The SDK's own checks of a
    call's arguments happen at synthesis, outside the repository, and are not
    modelled, with one exception: the wiring done by [bind]. *)

Module Sdk.

Definition qvar := list nat.

Inductive Pauli := PauliI | PauliX | PauliY | PauliZ.

(** [Pauli.<P>.value] *)
Definition Pauli_value (p : Pauli) : BinNums.Z :=
  match p with PauliI => 0 | PauliX => 1 | PauliY => 2 | PauliZ => 3 end.

(** A classical gate parameter: a rational literal or [np.pi]. *)
Inductive param := Lit (q : Q) | NpPi.

Inductive call :=
| inplace_prepare_state (probabilities : list Q) (bound : Q) (target : qvar)
| linear_pauli_rotations (bases : list BinNums.Z) (slopes offsets : list Q)
                         (x q : qvar)
| X (target : qvar)
| H (target : qvar)
| Z (target : qvar)
| U (theta phi lam gam : param) (target : qvar)
| within_apply (compute action : list call)
| invert (operand : list call)
| control_eq (ctrl : qvar) (value : BinNums.Z) (operand : list call)
| bind (source destination : list qvar).

(** Declaration of a [QArray[QBit]] with an explicit length: the number of
    its qubits, which cannot be negative.  An array of length 0 is declared
    like any other; it has no wires. *)
Definition QArray (length : BinNums.Z) : option nat :=
  if (0 <=? length)%Z then Some (Z.to_nat length) else None.

(** Size of a [QBit]. *)
Definition QBit : nat := 1.

(** The wiring of [bind]: the wires of the sources, in order, are dealt out
    to destinations of the given sizes; the sizes must use up the wires
    exactly. *)
Fixpoint deal (wires : qvar) (sizes : list nat) : option (list qvar) :=
  match sizes with
  | [] => match wires with [] => Some [] | _ :: _ => None end
  | n :: rest =>
      if (n <=? List.length wires)%nat then
        match deal (skipn n wires) rest with
        | Some vs => Some (firstn n wires :: vs)
        | None => None
        end
      else None
  end.

Definition bind_wires (source : list qvar) (sizes : list nat) : option (list qvar) :=
  deal (concat source) sizes.

End Sdk.

(** ** The QMCI notebook: module-level variables of the state-loading cell. *)

Module QMCI.

Definition sp_num_qubits : Z := 3.

(** [probabilities = np.linspace(0, 1, 2**sp_num_qubits)
                       / sum(np.linspace(0, 1, 2**sp_num_qubits))] *)
Definition probabilities : list Q :=
    Np.divide (Np.linspace 0 1 (Z.to_nat (2 ^ sp_num_qubits)))
              (Np.sumQ (Np.linspace 0 1 (Z.to_nat (2 ^ sp_num_qubits)))).

Definition slope : Q := 5 # 10.
Definition offset : Q := 4 # 10.

Definition n_qpe : Z := 3.

(** The "exact amplitude" printed by the last cell:
    [sum(np.sin(0.5 * n / 2 + 0.4 / 2) ** 2 * probabilities[n]
           for n in range(2**3))]. *)
Definition exact_amplitude_term (n : nat) : R :=
    ((sin (0.5 * INR n / 2 + 0.4 / 2)) ^ 2 * Q2R (nth n probabilities 0%Q))%R.

Definition exact_amplitude : R :=
    Np.sumR (map exact_amplitude_term (seq 0 (Z.to_nat (2 ^ 3)))).

(** The value the notebook's introduction sets out to estimate:
    [(1/N) * sum_{k=0}^{7} sin^2(0.25 k + 0.2) * k] with [N = 28]. *)
Definition target_expectation : R :=
    (1 / 28 *
     Np.sumR (map (fun k => (sin (0.25 * INR k + 0.2)) ^ 2 * INR k) (seq 0 8)))%R.


(** Module-level variables a quantum function of the notebook can read. *)
Record Globals := {
  g_sp_num_qubits : Z;
  g_probabilities : list Q;
  g_slope : Q;
  g_offset : Q;
  g_n_qpe : Z
}.

(** The values the notebook's cells assign. *)
Definition notebook_globals : Globals :=
  {| g_sp_num_qubits := sp_num_qubits;
     g_probabilities := probabilities;
     g_slope := slope;
     g_offset := offset;
     g_n_qpe := n_qpe |}.

(** [inplace_prepare_state(probabilities.tolist(), 0, state)] *)
Definition load_probabilities (g : Globals) (state : Sdk.qvar) : list Sdk.call :=
  [Sdk.inplace_prepare_state (g_probabilities g) 0 state].

(** [linear_pauli_rotations(bases=[Pauli.Y.value], slopes=[slope],
    offsets=[offset], x=io, q=ind)] *)
Definition amplitude_loading (g : Globals) (io ind : Sdk.qvar) : list Sdk.call :=
  [Sdk.linear_pauli_rotations [Sdk.Pauli_value Sdk.PauliY]
                              [g_slope g] [g_offset g] io ind].

Definition state_loading (g : Globals) (io ind : Sdk.qvar) : list Sdk.call :=
  load_probabilities g io ++ amplitude_loading g io ind.

Definition good_state_oracle (ind : Sdk.qvar) : list Sdk.call :=
  [Sdk.Z ind].

Definition prepare_minus (q : Sdk.qvar) : list Sdk.call :=
  [Sdk.X q; Sdk.H q].

(** [within_apply(lambda: prepare_minus(ind),
                  lambda: control(x == 0, lambda: X(ind)))] *)
Definition zero_oracle (x ind : Sdk.qvar) : list Sdk.call :=
  [Sdk.within_apply (prepare_minus ind) [Sdk.control_eq x 0 [Sdk.X ind]]].

(** The first three statements of [my_grover_operator]:
    [io = QArray[QBit]("io", length=state.len - 1)], [ind = QBit("ind")],
    [bind(state, [ind, io])]. *)
Definition grover_split (state : Sdk.qvar) : option (Sdk.qvar * Sdk.qvar) :=
  match Sdk.QArray (Z.of_nat (List.length state) - 1) with
  | None => None
  | Some io_length =>
      match Sdk.bind_wires [state] [Sdk.QBit; io_length] with
      | Some [ind; io] => Some (ind, io)
      | _ => None
      end
  end.

(** [my_grover_operator(state)]: the register it hands back and the calls it
    emits; [None] when the wiring is ill-defined. *)
Definition my_grover_operator (g : Globals) (state : Sdk.qvar)
  : option (Sdk.qvar * list Sdk.call) :=
  match grover_split state with
  | None => None
  | Some (ind, io) =>
      match Sdk.bind_wires [ind; io] [List.length state] with
      | Some [state'] =>
          Some (state',
                [Sdk.bind [state] [ind; io]]
                ++ good_state_oracle ind
                ++ [Sdk.within_apply [Sdk.invert (state_loading g io ind)]
                                     (zero_oracle io ind)]
                ++ [Sdk.U (Sdk.Lit 0) (Sdk.Lit 0) (Sdk.Lit 0) Sdk.NpPi ind]
                ++ [Sdk.bind [ind; io] [state']])
      | _ => None
      end
  end.

End QMCI.

(** ** The swap-test notebook. *)

Module SwapTest.

Definition NUM_QUBITS : Z := 3.

Section Amplitudes.

(** The stream of samples in [0, 1) that [np.random.rand] draws after
    [np.random.seed(12)]; [rand n] consumes the next [n] of them. *)
Variable rng : nat -> R.

Definition rand (drawn n : nat) : list R := map rng (seq drawn n).

(** [1 - 2 * np.random.rand(2**NUM_QUBITS)] *)
Definition raw1 : list R :=
  map (fun x => 1 - 2 * x)%R (rand 0 (Z.to_nat (2 ^ NUM_QUBITS))).

Definition raw2 : list R :=
  map (fun x => 1 - 2 * x)%R
      (rand (Z.to_nat (2 ^ NUM_QUBITS)) (Z.to_nat (2 ^ NUM_QUBITS))).

(** [np.linalg.norm]: the Euclidean norm. *)
Definition norm (v : list R) : R := sqrt (Np.sumR (map (fun x => x * x)%R v)).

(** [amps = amps / np.linalg.norm(amps)] *)
Definition amps1 : list R := map (fun x => x / norm raw1)%R raw1.
Definition amps2 : list R := map (fun x => x / norm raw2)%R raw2.

(** [a @ b] on two vectors. *)
Definition dot (a b : list R) : R :=
  Np.sumR (map (fun p => fst p * snd p)%R (combine a b)).

(** [exact_overlap = np.abs(amps1 @ amps2)] *)
Definition exact_overlap : R := Rabs (dot amps1 amps2).

End Amplitudes.

(** A float as numpy hands it back here: a real number or [nan]. *)
Inductive npfloat := Finite (r : R) | NaN.

(** The measurement counts of the execution result: bit string to shots. *)
Definition counts_t := list (string * Z).

(** [counts[key]]; [None] is Python's [KeyError]. *)
Fixpoint getitem (counts : counts_t) (key : string) : option Z :=
  match counts with
  | [] => None
  | (k, v) :: rest => if String.eqb k key then Some v else getitem rest key
  end.

Definition values (counts : counts_t) : list Z := map snd counts.

Definition sumZ (l : list Z) : Z := fold_left Z.add l 0%Z.

Inductive exn := KeyError | ZeroDivisionError.

Section Float64.

(** Cell 6 computes in binary64: the quotient of the two Python integers,
    the subtraction and the square root are each rounded to the nearest
    binary64 number.  The rounding is kept explicit, as [rnd]. *)
Variable rnd : R -> R.

(** [np.sqrt]: [nan] on a negative argument, else the rounded root. *)
Definition np_sqrt (x : R) : npfloat :=
  if Rlt_dec x 0 then NaN else Finite (rnd (sqrt x)).

(** [overlap_from_swap_test = np.sqrt(
       2 * res[0].value.counts["0"] / sum(res[0].value.counts.values()) - 1)]:
    [2 * counts["0"]] is a product of integers and exact, [/] is Python's
    true division of two integers. *)
Definition overlap_from_swap_test (counts : counts_t) : exn + npfloat :=
  match getitem counts "0" with
  | None => inl KeyError
  | Some c0 =>
      let total := sumZ (values counts) in
      if (total =? 0)%Z then inl ZeroDivisionError
      else inr (np_sqrt (rnd (rnd (IZR (2 * c0) / IZR total) - 1)))
  end.

End Float64.

(** Arithmetic without rounding. *)
Definition exact (x : R) : R := x.

(** What the facts below use of rounding to the nearest binary64 number: it
    is monotone, and it leaves the binary64 numbers [0], [1], [2],
    [1 - 2^-53] (the one just below [1]) and [- 2^-53] as they are. *)
Record rounds_like_float64 (rnd : R -> R) : Prop := {
  rnd_monotone : forall x y : R, (x <= y)%R -> (rnd x <= rnd y)%R;
  rnd_0 : rnd 0%R = 0%R;
  rnd_1 : rnd 1%R = 1%R;
  rnd_2 : rnd 2%R = 2%R;
  rnd_below_1 : rnd (1 - / 2 ^ 53)%R = (1 - / 2 ^ 53)%R;
  rnd_below_0 : rnd (- / 2 ^ 53)%R = (- / 2 ^ 53)%R
}.

Definition RTOL : Q := 5 # 100.

(** [np.isclose(a, b, rtol)] with its default [atol = 1e-08] and
    [equal_nan = False]: [|a - b| <= atol + rtol * |b|]. *)
Definition atol : Q := 1 # 100000000.

Definition isclose (a b : npfloat) (rtol : Q) : bool :=
  match a, b with
  | Finite x, Finite y =>
      if Rle_dec (Rabs (x - y)) (Q2R atol + Q2R rtol * Rabs y) then true else false
  | _, _ => false
  end.

Inductive outcome := Passed | AssertionError (message : string).

(** The last cell:
    [assert np.isclose(overlap_from_swap_test, exact_overlap, RTOL), f"..."] *)
Definition tolerance_cell (overlap_from_swap_test exact_overlap : npfloat) : outcome :=
  if isclose overlap_from_swap_test exact_overlap RTOL then Passed
  else AssertionError "
The quantum result is too far than classical one, by a relative tolerance of 0.05. Please verify your parameters".

End SwapTest.

(** ** The notebooks as syntax.

    The code cells are transcribed with the node names of Python's [ast]
    module; a [Constant] keeps a number, [True] or [False] as written and a
    string constant is a [Str].  Only the node kinds that occur in the
    notebooks are present: no cell contains an [if], [for], [while], [try],
    [raise] or [with] statement.  Parameter and return annotations are left
    out. *)

Module Py.

Local Open Scope string_scope.

Inductive expr :=
| Name (id : string)
| Constant (literal : string)
| Str (s : string)
| Attribute (value : expr) (attr : string)
| Subscript (value slice : expr)
| BinOp (left : expr) (op : string) (right : expr)
| UnaryOp (op : string) (operand : expr)
| Compare (left : expr) (op : string) (right : expr)
| Call (func : expr) (args : list expr)
| keyword (arg : string) (value : expr)
| Lambda (args : list string) (body : expr)
| GeneratorExp (elt : expr) (target : string) (iter : expr)
| List_ (elts : list expr)
| JoinedStr (values : list expr)
| Tuple (elts : list expr).

Inductive stmt :=
| Import (name asname : string)
| ImportFrom (module : string) (names : list string)
| Assign (target : string) (value : expr)
| AugAssign (target : string) (op : string) (value : expr)
| Expr (value : expr)
| Assert (test msg : expr)
| FunctionDef (name : string) (args : list string) (decorator : string)
              (body : list stmt).

Definition cell := list stmt.
Definition notebook := list cell.

(** [f(args)] with a plain name in function position, and [o.m(args)]. *)
Definition call (f : string) (args : list expr) : expr := Call (Name f) args.
Definition method (o : expr) (m : string) (args : list expr) : expr :=
  Call (Attribute o m) args.

Definition mem (x : string) (l : list string) : bool := existsb (String.eqb x) l.

Definition without (bound l : list string) : list string :=
  filter (fun x => negb (mem x bound)) l.

(** Names an expression reads: its free variables. *)
Fixpoint expr_reads (e : expr) : list string :=
  match e with
  | Name id => [id]
  | Constant _ | Str _ => []
  | Attribute v _ => expr_reads v
  | Subscript v s => expr_reads v ++ expr_reads s
  | BinOp l _ r => expr_reads l ++ expr_reads r
  | UnaryOp _ o => expr_reads o
  | Compare l _ r => expr_reads l ++ expr_reads r
  | Call f args => expr_reads f ++ flat_map expr_reads args
  | keyword _ v => expr_reads v
  | Lambda ps b => without ps (expr_reads b)
  | GeneratorExp elt t it => expr_reads it ++ without [t] (expr_reads elt)
  | List_ es | JoinedStr es | Tuple es => flat_map expr_reads es
  end.

(** Number of generator expressions (the only looping construct of the
    cells) inside an expression. *)
Fixpoint expr_loops (e : expr) : nat :=
  match e with
  | Name _ | Constant _ | Str _ => 0
  | Attribute v _ | UnaryOp _ v | keyword _ v | Lambda _ v => expr_loops v
  | Subscript a b | BinOp a _ b | Compare a _ b => expr_loops a + expr_loops b
  | Call f args => expr_loops f + list_sum (map expr_loops args)
  | GeneratorExp elt _ it => 1 + expr_loops elt + expr_loops it
  | List_ es | JoinedStr es | Tuple es => list_sum (map expr_loops es)
  end.

(** Names a statement binds in the scope it is executed in. *)
Definition stmt_binds (s : stmt) : list string :=
  match s with
  | Import _ asname => [asname]
  | ImportFrom _ names => names
  | Assign t _ => [t]
  | FunctionDef name _ _ _ => [name]
  | AugAssign _ _ _ | Expr _ | Assert _ _ => []
  end.

(** Names a statement reads from the enclosing scope.  A function body
    reads whatever its statements read, except the parameters and the
    names the body itself assigns. *)
Fixpoint stmt_reads (s : stmt) : list string :=
  match s with
  | Import _ _ | ImportFrom _ _ => []
  | Assign _ v => expr_reads v
  | AugAssign t _ v => t :: expr_reads v
  | Expr v => expr_reads v
  | Assert t m => expr_reads t ++ expr_reads m
  | FunctionDef _ ps _ body =>
      without (ps ++ flat_map stmt_binds body) (flat_map stmt_reads body)
  end.

Fixpoint stmt_loops (s : stmt) : nat :=
  match s with
  | Import _ _ | ImportFrom _ _ => 0
  | Assign _ v | AugAssign _ _ v | Expr v => expr_loops v
  | Assert t m => expr_loops t + expr_loops m
  | FunctionDef _ _ _ body => list_sum (map stmt_loops body)
  end.

Fixpoint stmt_asserts (s : stmt) : list expr :=
  match s with
  | Assert t _ => [t]
  | FunctionDef _ _ _ body => flat_map stmt_asserts body
  | _ => []
  end.

End Py.

(** ** The code cells of the QMCI notebook, in order. *)

Module QMCICells.

Import Py.
Local Open Scope string_scope.
Local Open Scope list_scope.

Definition cell_1 : cell :=
  [ Import "matplotlib.pyplot" "plt";
    ImportFrom "classiq"
      ["Constraints"; "H"; "Output"; "Pauli"; "QArray"; "QBit"; "QNum"; "U";
       "X"; "Z"; "allocate"; "allocate_num"; "bind"; "control"; "create_model";
       "execute"; "inplace_prepare_state"; "invert"; "linear_pauli_rotations";
       "qfunc"; "qpe"; "set_constraints"; "show"; "synthesize"; "within_apply"] ].

Definition linspace_call : expr :=
  method (Name "np") "linspace"
         [Constant "0"; Constant "1"; BinOp (Constant "2") "**" (Name "sp_num_qubits")].

Definition load_probabilities : stmt :=
  FunctionDef "load_probabilities" ["state"] "qfunc"
    [ Expr (call "inplace_prepare_state"
                 [method (Name "probabilities") "tolist" []; Constant "0"; Name "state"]) ].

Definition amplitude_loading : stmt :=
  FunctionDef "amplitude_loading" ["io"; "ind"] "qfunc"
    [ Expr (call "linear_pauli_rotations"
                 [keyword "bases" (List_ [Attribute (Attribute (Name "Pauli") "Y") "value"]);
                  keyword "slopes" (List_ [Name "slope"]);
                  keyword "offsets" (List_ [Name "offset"]);
                  keyword "x" (Name "io");
                  keyword "q" (Name "ind")]) ].

Definition state_loading : stmt :=
  FunctionDef "state_loading" ["io"; "ind"] "qfunc"
    [ Expr (call "load_probabilities" [Name "io"]);
      Expr (call "amplitude_loading" [keyword "io" (Name "io"); keyword "ind" (Name "ind")]) ].

Definition cell_2 : cell :=
  [ Import "numpy" "np";
    Assign "sp_num_qubits" (Constant "3");
    Assign "probabilities" (BinOp linspace_call "/" (call "sum" [linspace_call]));
    Assign "slope" (Constant "0.5");
    Assign "offset" (Constant "0.4");
    load_probabilities;
    amplitude_loading;
    state_loading ].

Definition synthesize_and_show : list stmt :=
  [ Assign "qprog" (call "synthesize" [Name "model"]);
    Expr (call "show" [Name "qprog"]) ].

Definition cell_3 : cell :=
  [ FunctionDef "main" ["res"; "ind"] "qfunc"
      [ Expr (call "allocate" [Name "sp_num_qubits"; Name "res"]);
        Expr (call "allocate" [Constant "1"; Name "ind"]);
        Expr (call "state_loading" [Name "res"; Name "ind"]) ];
    Assign "model" (call "create_model" [Name "main"]) ]
  ++ synthesize_and_show.

Definition good_state_oracle : stmt :=
  FunctionDef "good_state_oracle" ["ind"] "qfunc"
    [ Expr (call "Z" [Name "ind"]) ].

Definition cell_4 : cell := [ good_state_oracle ].

Definition prepare_minus : stmt :=
  FunctionDef "prepare_minus" ["q"] "qfunc"
    [ Expr (call "X" [Name "q"]); Expr (call "H" [Name "q"]) ].

Definition zero_oracle : stmt :=
  FunctionDef "zero_oracle" ["x"; "ind"] "qfunc"
    [ Expr (call "within_apply"
                 [Lambda [] (call "prepare_minus" [Name "ind"]);
                  Lambda [] (call "control"
                                  [Compare (Name "x") "==" (Constant "0");
                                   Lambda [] (call "X" [Name "ind"])])]) ].

Definition cell_5 : cell := [ prepare_minus; zero_oracle ].

Definition my_grover_operator : stmt :=
  FunctionDef "my_grover_operator" ["state"] "qfunc"
    [ Assign "io" (Call (Subscript (Name "QArray") (Name "QBit"))
                        [Str "io";
                         keyword "length"
                                 (BinOp (Attribute (Name "state") "len") "-" (Constant "1"))]);
      Assign "ind" (call "QBit" [Str "ind"]);
      Expr (call "bind" [Name "state"; List_ [Name "ind"; Name "io"]]);
      Expr (call "good_state_oracle" [keyword "ind" (Name "ind")]);
      Expr (call "within_apply"
                 [Lambda [] (call "invert"
                                  [Lambda [] (call "state_loading"
                                                   [keyword "io" (Name "io");
                                                    keyword "ind" (Name "ind")])]);
                  Lambda [] (call "zero_oracle" [Name "io"; Name "ind"])]);
      Expr (call "U" [Constant "0"; Constant "0"; Constant "0"; Attribute (Name "np") "pi"; Name "ind"]);
      Expr (call "bind" [List_ [Name "ind"; Name "io"]; Name "state"]) ].

Definition cell_6 : cell := [ my_grover_operator ].

Definition declare_io_ind : list stmt :=
  [ Assign "io" (Call (Subscript (Name "QArray") (Name "QBit")) [Str "io"]);
    Assign "ind" (call "QBit" [Str "ind"]);
    Expr (call "allocate" [Name "sp_num_qubits"; Name "io"]);
    Expr (call "allocate" [Constant "1"; Name "ind"]) ].

Definition cell_7 : cell :=
  [ FunctionDef "main" ["state"] "qfunc"
      (declare_io_ind ++
       [ Expr (call "bind" [List_ [Name "ind"; Name "io"]; Name "state"]);
         Expr (call "my_grover_operator" [Name "state"]) ]);
    Assign "model" (call "create_model" [Name "main"]) ]
  ++ synthesize_and_show.

Definition cell_8 : cell :=
  [ Assign "n_qpe" (Constant "3");
    FunctionDef "main" ["phase"] "qfunc"
      (declare_io_ind ++
       [ Expr (call "state_loading" [keyword "io" (Name "io"); keyword "ind" (Name "ind")]);
         Assign "state" (Call (Subscript (Name "QArray") (Name "QBit")) [Str "state"]);
         Expr (call "bind" [List_ [Name "ind"; Name "io"]; Name "state"]);
         Expr (call "allocate_num" [Name "n_qpe"; Constant "False"; Name "n_qpe"; Name "phase"]);
         Expr (call "qpe"
                    [keyword "unitary"
                       (Lambda [] (call "my_grover_operator" [keyword "state" (Name "state")]));
                     keyword "phase" (Name "phase")]);
         Expr (call "bind" [Name "state"; List_ [Name "ind"; Name "io"]]) ]);
    Assign "model" (call "create_model" [Name "main"]);
    Assign "model" (call "set_constraints"
                         [Name "model";
                          call "Constraints" [keyword "max_width" (Constant "9")]]) ]
  ++ synthesize_and_show.

Definition cell_9 : cell :=
  [ ImportFrom "classiq" ["write_qmod"];
    Expr (call "write_qmod" [Name "model"; Str "qmc_user_defined";
                             keyword "decimal_precision" (Constant "10")]) ].

Definition cell_10 : cell :=
  [ Assign "res"
      (Attribute
         (Subscript (method (call "execute" [Name "qprog"]) "result" []) (Constant "0"))
         "value") ].

Definition cell_11 : cell :=
  [ Assign "phases_counts"
      (call "dict"
            [GeneratorExp
               (Tuple [Subscript (Attribute (Name "sampled_state") "state") (Str "phase");
                       Attribute (Name "sampled_state") "shots"])
               "sampled_state"
               (Attribute (Name "res") "parsed_counts")]) ].

Definition max_phase : expr :=
  call "max" [Name "phases_counts";
              keyword "key" (Attribute (Name "phases_counts") "get")].

Definition cell_12 : cell :=
  [ Expr (method (Name "plt") "bar"
                 [method (Name "phases_counts") "keys" [];
                  method (Name "phases_counts") "values" [];
                  keyword "width" (Constant "0.1")]);
    Expr (method (Name "plt") "xticks" [keyword "rotation" (Constant "90")]);
    Expr (call "print" [Str "phase with max probability: "; max_phase]) ].

Definition cell_13 : cell :=
  [ Expr (call "print"
               [Str "measured amplitude: ";
                BinOp (method (Name "np") "sin"
                              [BinOp (Attribute (Name "np") "pi") "*" max_phase])
                      "**" (Constant "2")]);
    Expr (call "print"
               [Str "exact amplitude: ";
                call "sum"
                     [GeneratorExp
                        (BinOp
                           (BinOp
                              (method (Name "np") "sin"
                                 [BinOp (BinOp (BinOp (Constant "0.5") "*" (Name "n")) "/" (Constant "2"))
                                        "+" (BinOp (Constant "0.4") "/" (Constant "2"))])
                              "**" (Constant "2"))
                           "*" (Subscript (Name "probabilities") (Name "n")))
                        "n"
                        (call "range" [BinOp (Constant "2") "**" (Constant "3")])]]) ].

Definition cells : notebook :=
  [cell_1; cell_2; cell_3; cell_4; cell_5; cell_6; cell_7; cell_8; cell_9;
   cell_10; cell_11; cell_12; cell_13].

End QMCICells.

(** ** The code cells of the swap-test notebook. *)

Module SwapTestCells.

Import Py.
Local Open Scope string_scope.
Local Open Scope list_scope.

Definition random_amplitudes : expr :=
  BinOp (Constant "1") "-"
        (BinOp (Constant "2") "*"
               (method (Attribute (Name "np") "random") "rand"
                       [BinOp (Constant "2") "**" (Name "NUM_QUBITS")])).

Definition normalized (v : string) : expr :=
  BinOp (Name v) "/" (method (Attribute (Name "np") "linalg") "norm" [Name v]).

Definition cell_1 : cell :=
  [ Import "numpy" "np";
    Expr (method (Attribute (Name "np") "random") "seed" [Constant "12"]);
    Assign "NUM_QUBITS" (Constant "3");
    Assign "amps1" random_amplitudes;
    Assign "amps2" random_amplitudes;
    Assign "amps1" (normalized "amps1");
    Assign "amps2" (normalized "amps2") ].

Definition main : stmt :=
  FunctionDef "main" ["test"] "qfunc"
    [ Assign "state1" (call "QArray" [Str "state1"]);
      Assign "state2" (call "QArray" [Str "state2"]);
      Expr (call "prepare_amplitudes"
                 [method (Name "amps1") "tolist" []; Constant "0.0"; Name "state1"]);
      Expr (call "prepare_amplitudes"
                 [method (Name "amps2") "tolist" []; Constant "0.0"; Name "state2"]);
      Expr (call "swap_test" [Name "state1"; Name "state2"; Name "test"]) ].

Definition cell_2 : cell :=
  [ ImportFrom "classiq"
      ["Output"; "QArray"; "QBit"; "create_model"; "execute";
       "prepare_amplitudes"; "qfunc"; "set_execution_preferences"; "swap_test";
       "synthesize"];
    ImportFrom "classiq.execution" ["ExecutionPreferences"];
    main;
    Assign "qmod" (call "create_model" [Name "main"]);
    Assign "qmod"
      (call "set_execution_preferences"
            [Name "qmod";
             keyword "execution_preferences"
                     (call "ExecutionPreferences" [keyword "num_shots" (Constant "100_000")])]);
    Assign "qprog" (call "synthesize" [Name "qmod"]) ].

Definition cell_3 : cell :=
  [ ImportFrom "classiq" ["show"]; Expr (call "show" [Name "qprog"]) ].

Definition cell_4 : cell :=
  [ ImportFrom "classiq" ["write_qmod"];
    Expr (call "write_qmod" [Name "qmod"; Str "swap_test";
                             keyword "decimal_precision" (Constant "15")]) ].

Definition cell_5 : cell :=
  [ Assign "res" (method (call "execute" [Name "qprog"]) "result" []) ].

Definition counts : expr :=
  Attribute (Attribute (Subscript (Name "res") (Constant "0")) "value") "counts".

Definition cell_6 : cell :=
  [ Assign "overlap_from_swap_test"
      (method (Name "np") "sqrt"
         [BinOp
            (BinOp (BinOp (Constant "2") "*" (Subscript counts (Str "0")))
                   "/" (call "sum" [method counts "values" []]))
            "-" (Constant "1")]);
    Assign "exact_overlap"
      (method (Name "np") "abs" [BinOp (Name "amps1") "@" (Name "amps2")]) ].

Definition cell_7 : cell :=
  [ Expr (call "print" [Str "States overlap from Swap-Test result:";
                        Name "overlap_from_swap_test"]);
    Expr (call "print" [Str "States overlap from classical calculation:";
                        Name "exact_overlap"]) ].

Definition tolerance_test : expr :=
  method (Name "np") "isclose"
         [Name "overlap_from_swap_test"; Name "exact_overlap"; Name "RTOL"].

Definition cell_8 : cell :=
  [ Assign "RTOL" (Constant "0.05");
    Assert tolerance_test
      (JoinedStr
         [Str "
The quantum result is too far than classical one, by a relative tolerance of ";
          Name "RTOL";
          Str ". Please verify your parameters"]) ].

Definition cells : notebook :=
  [cell_1; cell_2; cell_3; cell_4; cell_5; cell_6; cell_7; cell_8].

End SwapTestCells.

(** ** The code cells of the option-pricing notebook. *)

Module OptionPricingCells.

Import Py.
Local Open Scope string_scope.
Local Open Scope list_scope.

Definition cell_1 : cell :=
  [ ImportFrom "classiq.applications.finance" ["log_normal_model_input"];
    Assign "num_qubits" (Constant "5");
    Assign "mu" (Constant "0.7");
    Assign "sigma" (Constant "0.13");
    Assign "log_normal_model"
      (method (Name "log_normal_model_input") "LogNormalModelInput"
              [keyword "num_qubits" (Name "num_qubits");
               keyword "mu" (Name "mu");
               keyword "sigma" (Name "sigma")]) ].

Definition cell_2 : cell :=
  [ ImportFrom "classiq.applications.finance" ["function_input"];
    Assign "threshold" (Constant "2");
    Assign "condition"
      (method (Name "function_input") "FunctionCondition"
              [keyword "threshold" (Name "threshold"); keyword "larger" (Constant "True")]);
    Assign "finance_function"
      (method (Name "function_input") "FinanceFunctionInput"
              [keyword "f" (Str "european call option");
               keyword "condition" (Name "condition")]) ].

Definition cell_3 : cell :=
  [ ImportFrom "classiq" ["construct_finance_model"];
    Assign "qmod"
      (call "construct_finance_model"
            [keyword "finance_model_input" (Name "log_normal_model");
             keyword "finance_function_input" (Name "finance_function");
             keyword "phase_port_size" (Constant "1")]) ].

Definition cell_4 : cell :=
  [ ImportFrom "classiq" ["write_qmod"];
    Expr (call "write_qmod" [Name "qmod"; Str "option_pricing"]) ].

Definition cell_5 : cell :=
  [ ImportFrom "classiq" ["show"; "synthesize"];
    Assign "qprog" (call "synthesize" [Name "qmod"]);
    Expr (call "show" [Name "qprog"]) ].

Definition cell_6 : cell :=
  [ ImportFrom "classiq" ["execute"];
    Assign "results" (method (call "execute" [Name "qprog"]) "result" []) ].

Definition cell_7 : cell :=
  [ Expr (call "print"
               [Attribute (Subscript (Name "results") (Constant "1")) "name";
                Str ":";
                Attribute (Subscript (Name "results") (Constant "1")) "value"]) ].

Definition cells : notebook :=
  [cell_1; cell_2; cell_3; cell_4; cell_5; cell_6; cell_7].

End OptionPricingCells.

(** ** The code cells of the phase-kickback notebook. *)

Module PhaseKickbackCells.

Import Py.
Local Open Scope string_scope.
Local Open Scope list_scope.

Definition prepare_minus : stmt :=
  FunctionDef "prepare_minus" ["target"] "qfunc"
    [ Expr (call "allocate" [keyword "out" (Name "target");
                             keyword "num_qubits" (Constant "1")]);
      Expr (call "X" [Name "target"]);
      Expr (call "H" [Name "target"]) ].

Definition oracle_function : stmt :=
  FunctionDef "oracle_function" ["target"; "x"] "qfunc"
    [ AugAssign "target" "^=" (Compare (Name "x") "==" (Constant "0")) ].

Definition oracle_phase_kickback : stmt :=
  FunctionDef "oracle_phase_kickback" ["x"] "qfunc"
    [ Assign "target" (call "QBit" [Str "target"]);
      Expr (call "within_apply"
                 [keyword "compute" (Lambda [] (call "prepare_minus" [Name "target"]));
                  keyword "action"
                          (Lambda [] (call "oracle_function" [Name "target"; Name "x"]))]) ].

Definition main : stmt :=
  FunctionDef "main" ["x"] "qfunc"
    [ Expr (call "allocate" [keyword "num_qubits" (Constant "4"); keyword "out" (Name "x")]);
      Expr (call "hadamard_transform" [Name "x"]);
      Expr (call "oracle_phase_kickback" [Name "x"]) ].

Definition build_and_show : list stmt :=
  [ Assign "qmod" (call "create_model" [Name "main"]);
    Assign "qprog" (call "synthesize" [Name "qmod"]);
    Expr (call "show" [Name "qprog"]) ].

Definition cell_1 : cell :=
  [ ImportFrom "classiq" ["H"; "Output"; "QBit"; "X"; "allocate"; "qfunc"];
    prepare_minus ].

Definition cell_2 : cell :=
  [ ImportFrom "classiq" ["QNum"]; oracle_function ].

Definition cell_3 : cell :=
  [ ImportFrom "classiq" ["within_apply"]; oracle_phase_kickback ].

Definition cell_4 : cell :=
  [ ImportFrom "classiq" ["create_model"; "hadamard_transform"; "show"; "synthesize"];
    main ]
  ++ build_and_show.

Definition cell_5 : cell :=
  [ ImportFrom "classiq"
      ["H"; "Output"; "QBit"; "QNum"; "X"; "allocate"; "create_model";
       "hadamard_transform"; "qfunc"; "show"; "synthesize"; "within_apply";
       "write_qmod"];
    prepare_minus;
    oracle_function;
    oracle_phase_kickback;
    main ]
  ++ build_and_show
  ++ [ Expr (call "write_qmod" [Name "qmod"; Str "phase_kickback"]) ].

Definition cells : notebook := [cell_1; cell_2; cell_3; cell_4; cell_5].

End PhaseKickbackCells.

(** ** The code cells of the MCX notebook. *)

Module MCXCells.

Import Py.
Local Open Scope string_scope.
Local Open Scope list_scope.

Definition cell_1 : cell :=
  [ ImportFrom "math" ["pi"];
    ImportFrom "classiq"
      ["Constraints"; "CustomHardwareSettings"; "OptimizationParameter"; "Output";
       "Preferences"; "QArray"; "QBit"; "QuantumProgram"; "X"; "allocate";
       "control"; "create_model"; "qfunc"; "set_constraints"; "set_preferences";
       "show"; "synthesize"] ].

Definition my_mcx : stmt :=
  FunctionDef "my_mcx" ["cntrl"; "target"] "qfunc"
    [ Expr (call "control" [Name "cntrl"; Lambda [] (call "X" [Name "target"])]) ].

Definition main (controls : string) : stmt :=
  FunctionDef "main" ["cntrl"; "target"] "qfunc"
    [ Expr (call "allocate" [Constant controls; Name "cntrl"]);
      Expr (call "allocate" [Constant "1"; Name "target"]);
      Expr (call "my_mcx" [Name "cntrl"; Name "target"]) ].

Definition cell_2 : cell := [ my_mcx ].

Definition cell_3 : cell := [ main "14" ].

Definition cell_4 : cell := [ Assign "model" (call "create_model" [Name "main"]) ].

Definition depth : expr :=
  Attribute (Name "OptimizationParameter") "DEPTH".

Definition cell_5 : cell :=
  [ ImportFrom "classiq" ["write_qmod"];
    Assign "constraints"
      (call "Constraints" [keyword "max_width" (Constant "20");
                           keyword "optimization_parameter" depth]);
    Assign "model" (call "set_constraints" [Name "model"; Name "constraints"]);
    Expr (call "write_qmod" [Name "model"; Str "mcx_14_ctrl_depth"]) ].

Definition cell_6 : cell :=
  [ Assign "qprog" (call "synthesize" [Name "model"]);
    Expr (call "show" [Name "qprog"]) ].

Definition transpiled : expr := Attribute (Name "circuit") "transpiled_circuit".

Definition from_qprog : stmt :=
  Assign "circuit" (method (Name "QuantumProgram") "from_qprog" [Name "qprog"]).

Definition print_depth : stmt :=
  Expr (call "print"
             [JoinedStr [Str "Synthesized MCX depth is "; Attribute transpiled "depth"]]).

Definition cell_7 : cell := [ from_qprog; print_depth ].

Definition constrained_model (constraints preferences : expr) (file : string)
  : list stmt :=
  [ Assign "model" (call "create_model" [Name "main"]);
    Assign "constraints" constraints;
    Assign "preferences" preferences;
    Assign "model" (call "set_constraints" [Name "model"; Name "constraints"]);
    Assign "model" (call "set_preferences" [Name "model"; Name "preferences"]);
    Expr (call "write_qmod" [Name "model"; Str file]);
    Assign "qprog" (call "synthesize" [Name "model"]);
    from_qprog ].

Definition cell_8 : cell :=
  constrained_model
    (call "Constraints" [keyword "optimization_parameter" depth;
                         keyword "max_width" (Constant "21")])
    (call "Preferences" [keyword "backend_service_provider" (Str "IBM Quantum");
                         keyword "backend_name" (Str "ibmq_kolkata")])
    "mcx_14_ctrl_hardware"
  ++ [ print_depth; Expr (method (Name "circuit") "show" []) ].

Definition cell_9 : cell :=
  constrained_model
    (call "Constraints" [keyword "max_width" (Constant "19");
                         keyword "optimization_parameter" (Str "cx")])
    (call "Preferences"
          [keyword "custom_hardware_settings"
                   (call "CustomHardwareSettings"
                         [keyword "basis_gates" (List_ [Str "cx"; Str "u"])])])
    "mcx_14_ctrl_cx"
  ++ [ Expr (call "print"
                  [JoinedStr [Str "Synthesized MCX cx-count is ";
                              Subscript (Attribute transpiled "count_ops") (Str "cx")]]);
       Expr (method (Name "circuit") "show" []) ].

Definition cell_10 : cell :=
  [ main "50";
    Assign "model" (call "create_model" [Name "main"]);
    Expr (call "write_qmod" [Name "model"; Str "mcx_50_ctrl"]);
    Assign "qprog" (call "synthesize" [Name "model"]);
    Expr (call "show" [Name "qprog"]) ].

Definition cells : notebook :=
  [cell_1; cell_2; cell_3; cell_4; cell_5; cell_6; cell_7; cell_8; cell_9; cell_10].

End MCXCells.

(** ** The code cells of the QPE usage example. *)

Module QPECells.

Import Py.
Local Open Scope string_scope.
Local Open Scope list_scope.

Definition allocate_state_phase : list stmt :=
  [ Expr (call "allocate" [Constant "2"; Name "state"]);
    Expr (call "allocate_num"
               [Name "QPE_RESOLUTION"; Constant "0"; Name "QPE_RESOLUTION"; Name "phase"]) ].

Definition cell_1 : cell :=
  [ ImportFrom "classiq"
      ["CRZ"; "Output"; "QArray"; "QBit"; "QNum"; "allocate"; "allocate_num";
       "create_model"; "inplace_prepare_int"; "qfunc"; "qpe"];
    ImportFrom "classiq.qmod.symbolic" ["pi"];
    Assign "QPE_RESOLUTION" (Constant "2");
    FunctionDef "main" ["state"; "phase"] "qfunc"
      (allocate_state_phase ++
       [ Expr (call "inplace_prepare_int" [Constant "3"; Name "state"]);
         Expr (call "qpe"
                    [keyword "unitary"
                       (Lambda [] (call "CRZ" [Name "pi";
                                               Subscript (Name "state") (Constant "0");
                                               Subscript (Name "state") (Constant "1")]));
                     keyword "phase" (Name "phase")]) ]);
    Assign "qmod" (call "create_model" [Name "main"]) ].

Definition export_and_synthesize (file : string) : cell :=
  [ ImportFrom "classiq" ["synthesize"; "write_qmod"];
    Expr (call "write_qmod" [Name "qmod"; Str file]);
    Assign "qprog" (call "synthesize" [Name "qmod"]) ].

Definition cell_2 : cell := export_and_synthesize "qpe_example".

Definition execute_and_print : cell :=
  [ ImportFrom "classiq" ["execute"];
    Assign "res"
      (Attribute
         (Subscript (method (call "execute" [Name "qprog"]) "result" []) (Constant "0"))
         "value");
    Expr (call "print" [Str "Results:"; Attribute (Name "res") "parsed_counts"]) ].

Definition cell_3 : cell := execute_and_print.

Definition pauli_term (p q : string) (coefficient : expr) : expr :=
  call "PauliTerm"
       [keyword "pauli" (List_ [Attribute (Name "Pauli") p; Attribute (Name "Pauli") q]);
        keyword "coefficient" coefficient].

Definition cell_4 : cell :=
  [ ImportFrom "classiq"
      ["Output"; "Pauli"; "PauliTerm"; "QArray"; "QBit"; "QNum"; "allocate";
       "allocate_num"; "create_model"; "hadamard_transform"; "qfunc";
       "qpe_flexible"; "suzuki_trotter"];
    ImportFrom "classiq.qmod.symbolic" ["pi"];
    Assign "QPE_RESOLUTION" (Constant "2");
    Assign "HAMILTONIAN"
      (List_ [pauli_term "I" "Z" (UnaryOp "-" (Constant "0.125"));
              pauli_term "Z" "I" (UnaryOp "-" (Constant "0.25"));
              pauli_term "I" "I" (Constant "0.375")]);
    FunctionDef "main" ["state"; "phase"] "qfunc"
      (allocate_state_phase ++
       [ Expr (call "hadamard_transform" [Name "state"]);
         Expr (call "qpe_flexible"
                    [Lambda ["power"]
                       (call "suzuki_trotter"
                             [Name "HAMILTONIAN";
                              keyword "evolution_coefficient"
                                (BinOp (BinOp (UnaryOp "-" (Constant "2")) "*" (Name "pi"))
                                       "*" (Name "power"));
                              keyword "order" (Constant "1");
                              keyword "repetitions" (Constant "1");
                              keyword "qbv" (Name "state")]);
                     Name "phase"]) ]);
    Assign "qmod" (call "create_model" [Name "main"]) ].

Definition cell_5 : cell := export_and_synthesize "qpe_flexible_example".

Definition cell_6 : cell := execute_and_print.

Definition cells : notebook := [cell_1; cell_2; cell_3; cell_4; cell_5; cell_6].

End QPECells.

(** ** The code cells of the amplitude-loading usage example. *)

Module AmplitudeLoadingCells.

Import Py.
Local Open Scope string_scope.
Local Open Scope list_scope.

Definition main : stmt :=
  FunctionDef "main" ["x"; "ind"] "qfunc"
    [ Expr (call "allocate_num"
                 [Name "VAR_SIZE"; Constant "False"; Name "VAR_SIZE"; Name "x"]);
      Expr (call "allocate" [Constant "1"; Name "ind"]);
      AugAssign "ind" "*=" (BinOp (Name "x") "**" (Constant "2")) ].

Definition cell_1 : cell :=
  [ ImportFrom "classiq"
      ["Output"; "QArray"; "QBit"; "QNum"; "allocate"; "allocate_num";
       "create_model"; "qfunc"];
    Assign "VAR_SIZE" (Constant "4");
    main;
    Assign "qmod" (call "create_model" [Name "main"]) ].

Definition cell_2 : cell :=
  [ ImportFrom "classiq" ["synthesize"; "write_qmod"];
    Expr (call "write_qmod" [Name "qmod"; Str "amplitude_loading_example"]);
    Assign "qprog" (call "synthesize" [Name "qmod"]) ].

Definition cells : notebook := [cell_1; cell_2].

End AmplitudeLoadingCells.

(** ** Native Qmod, as used by the whitebox-fuzzing model. *)

Module Qmod.

Local Open Scope string_scope.
Local Open Scope list_scope.

Inductive expr :=
| Var (name : string)
| Lit (value : string)
| Field (e : expr) (field : string)
| Bin (left : expr) (op : string) (right : expr).

(** A statement; a call carries its generic arguments [f<...>] (classical
    expressions or operand lambdas) and its arguments [(...)]. *)
Inductive stmt :=
| Call (func : string) (generics : list generic) (args : list expr)
| InplaceXor (target : string) (value : expr)
| Local (name type : string) (type_args : list expr)
| Within (compute action : list stmt)
| Control (condition : expr) (body : list stmt)
| Invert (body : list stmt)
| Power (exponent : expr) (body : list stmt)
| Bind (source destination : list string)
with generic :=
| GExpr (e : expr)
| GLambda (params : list string) (body : list stmt).

Record qfunc := {
  name : string;
  operands : list string;
  params : list string;
  body : list stmt
}.

(** A statement together with every statement nested inside it. *)
Fixpoint nodes (s : stmt) : list stmt :=
  s ::
  match s with
  | Call _ gs _ => flat_map generic_nodes gs
  | InplaceXor _ _ | Local _ _ _ | Bind _ _ => []
  | Within c a => flat_map nodes c ++ flat_map nodes a
  | Control _ b | Invert b | Power _ b => flat_map nodes b
  end
with generic_nodes (g : generic) : list stmt :=
  match g with
  | GExpr _ => []
  | GLambda _ b => flat_map nodes b
  end.

Definition is_inplace (s : stmt) : bool :=
  match s with InplaceXor _ _ => true | _ => false end.

Definition is_power (s : stmt) : bool :=
  match s with Power _ _ => true | _ => false end.

Definition is_control (s : stmt) : bool :=
  match s with Control _ _ => true | _ => false end.

Definition all_nodes (f : qfunc) : list stmt := flat_map nodes (body f).

Definition defined (file : list qfunc) : list string := map name file.

(** Names called anywhere inside a function. *)
Definition call_targets (f : qfunc) : list string :=
  flat_map (fun s => match s with Call g _ _ => [g] | _ => [] end) (all_nodes f).

(** Called names that are neither functions of the file nor operands. *)
Definition external_calls (file : list qfunc) : list string :=
  nodup string_dec
    (flat_map (fun f => filter (fun g => negb (Py.mem g (defined file ++ operands f)))
                               (call_targets f))
              file).

(** The functions of the file that contain a statement satisfying [p]. *)
Definition functions_with (p : stmt -> bool) (file : list qfunc) : list string :=
  map name (filter (fun f => existsb p (all_nodes f)) file).

(** The body is nothing but calls of functions the file does not define
    itself (neither a function of the file nor an operand parameter). *)
Definition sdk_call_sequence (file : list qfunc) (f : qfunc) : bool :=
  forallb (fun s =>
             match s with
             | Call g _ _ => negb (Py.mem g (defined file ++ operands f))
             | _ => false
             end) (body f).

End Qmod.

(** ** [whitebox_fuzzing.qmod] *)

Module WhiteboxFuzzing.

Import Qmod.
Local Open Scope string_scope.
Local Open Scope list_scope.

Definition call (f : string) (args : list string) : stmt :=
  Call f [] (map Var args).

Definition my_sp : qfunc :=
  {| name := "my_sp"; operands := []; params := ["x"; "y"];
     body := [ call "hadamard_transform" ["x"]; call "hadamard_transform" ["y"] ] |}.

(** [res ^= ((x + y) < 9) and (((x * y) % 4) == 1);] *)
Definition my_predicate : qfunc :=
  {| name := "my_predicate"; operands := []; params := ["x"; "y"; "res"];
     body := [ InplaceXor "res"
                 (Bin (Bin (Bin (Var "x") "+" (Var "y")) "<" (Lit "9"))
                      "and"
                      (Bin (Bin (Bin (Var "x") "*" (Var "y")) "%" (Lit "4"))
                           "==" (Lit "1"))) ] |}.

Definition prep_minus : qfunc :=
  {| name := "prep_minus"; operands := []; params := ["out"];
     body := [ Call "allocate" [GExpr (Lit "1")] [Var "out"];
               call "X" ["out"]; call "H" ["out"] ] |}.

Definition my_oracle : qfunc :=
  {| name := "my_oracle"; operands := ["predicate"]; params := [];
     body := [ Local "aux" "qbit" [];
               Within [ call "prep_minus" ["aux"] ] [ call "predicate" ["aux"] ] ] |}.

Definition zero_predicate : qfunc :=
  {| name := "zero_predicate"; operands := []; params := ["x"; "y"; "res"];
     body := [ Local "joined" "qnum"
                 [Bin (Field (Var "x") "len") "+" (Field (Var "y") "len");
                  Lit "False"; Lit "0"];
               Bind ["x"; "y"] ["joined"];
               Control (Bin (Var "joined") "==" (Lit "0")) [ call "X" ["res"] ];
               Bind ["joined"] ["x"; "y"] ] |}.

Definition my_diffuser : qfunc :=
  {| name := "my_diffuser"; operands := ["sp_operand"]; params := ["x"; "y"];
     body := [ Within
                 [ Invert [ call "sp_operand" ["x"; "y"] ] ]
                 [ Call "my_oracle"
                     [GLambda ["arg0"] [ call "zero_predicate" ["x"; "y"; "arg0"] ]]
                     [] ] ] |}.

Definition my_grover_operator : qfunc :=
  {| name := "my_grover_operator";
     operands := ["oracle_operand"; "diffuser_operand"]; params := [];
     body := [ call "oracle_operand" []; call "diffuser_operand" [] ] |}.

Definition allocate_num (out : string) : stmt :=
  Call "allocate_num" [GExpr (Lit "6"); GExpr (Lit "False"); GExpr (Lit "0")] [Var out].

Definition main : qfunc :=
  {| name := "main"; operands := []; params := ["x"; "y"];
     body :=
       [ allocate_num "x";
         allocate_num "y";
         call "my_sp" ["x"; "y"];
         Power (Lit "4")
           [ Call "my_grover_operator"
               [ GLambda []
                   [ Call "my_oracle"
                       [GLambda ["arg0"] [ call "my_predicate" ["x"; "y"; "arg0"] ]]
                       [] ];
                 GLambda []
                   [ Call "my_diffuser"
                       [GLambda ["arg0"; "arg1"] [ call "my_sp" ["arg0"; "arg1"] ]]
                       [Var "x"; Var "y"] ] ]
               [] ] ] |}.

Definition file : list qfunc :=
  [my_sp; my_predicate; prep_minus; my_oracle; zero_predicate; my_diffuser;
   my_grover_operator; main].

(** What [my_predicate] computes on a computational-basis state: the
    result qubit is flipped exactly when [x + y < 9] and [x * y % 4 == 1]. *)
Definition my_predicate_action (x y : Z) (res : bool) : bool :=
  xorb res (((x + y <? 9) && ((x * y) mod 4 =? 1))%Z).

End WhiteboxFuzzing.

(** ** The repository as a whole: def-use and shape of the cells. *)

Module Repo.

Import Py.
Local Open Scope string_scope.
Local Open Scope list_scope.

Definition notebooks : list (string * notebook) :=
  [ ("qmci", QMCICells.cells);
    ("swap_test", SwapTestCells.cells);
    ("option_pricing", OptionPricingCells.cells);
    ("phase_kickback", PhaseKickbackCells.cells);
    ("mcx", MCXCells.cells);
    ("qpe_example", QPECells.cells);
    ("amplitude_loading_example", AmplitudeLoadingCells.cells) ].

(** Module-level variables a cell assigns. *)
Definition assigned (c : cell) : list string :=
  flat_map (fun s => match s with Assign t _ => [t] | _ => [] end) c.

Definition cell_loops (c : cell) : nat := list_sum (map stmt_loops c).

(** Positions (counted from [i]) of the elements that satisfy [p]. *)
Fixpoint positions {A} (p : A -> bool) (l : list A) (i : nat) : list nat :=
  match l with
  | [] => []
  | x :: rest => (if p x then [i] else []) ++ positions p rest (S i)
  end.

(** The function definitions of a notebook, with the number of their cell. *)
Definition functions (nb : notebook) : list (nat * stmt) :=
  concat
    (map (fun ic : nat * cell =>
            flat_map (fun s => match s with
                               | FunctionDef _ _ _ _ => [(fst ic, s)]
                               | _ => []
                               end) (snd ic))
         (combine (seq 1 (List.length nb)) nb)).

Definition function_name (f : stmt) : string :=
  match f with FunctionDef n _ _ _ => n | _ => "" end.

Definition function_body (f : stmt) : list stmt :=
  match f with FunctionDef _ _ _ b => b | _ => [] end.

(** What a cell reads when it runs.  Executing a [def] reads its decorator
    (and its annotations, which name SDK types only) and nothing of what the
    body names: the body runs when the function is called.  No cell calls a
    function of its notebook itself; a cell hands [main] to [create_model],
    which runs the body of [main] and, through it, the bodies of the
    functions it calls, the lambdas included.  So a
    statement that names a function of the notebook is charged with what
    that function's body reads, and so on through the calls, each name
    resolved to the definition in force when the statement runs. *)

(** The function definitions in force, the latest first. *)
Definition env := list (string * stmt).

Fixpoint lookup (f : string) (e : env) : option stmt :=
  match e with
  | [] => None
  | (name, d) :: rest => if String.eqb name f then Some d else lookup f rest
  end.

Definition unbind (x : string) (e : env) : env :=
  filter (fun d => negb (String.eqb (fst d) x)) e.

(** All the names, when every part is known. *)
Fixpoint gather (parts : list (option (list string))) : option (list string) :=
  match parts with
  | [] => Some []
  | None :: _ => None
  | Some names :: rest =>
      match gather rest with
      | Some more => Some (names ++ more)
      | None => None
      end
  end.

(** Names read while the function bound to [f] runs: none when [f] is not
    a function of the notebook; [None] when the calls nest deeper than
    [fuel]. *)
Fixpoint invoked (fuel : nat) (e : env) (f : string) : option (list string) :=
  match lookup f e with
  | None => Some []
  | Some d =>
      match fuel with
      | O => None
      | S k => gather (Some (stmt_reads d) :: map (invoked k e) (stmt_reads d))
      end
  end.

(** Names read by a statement that names [names]. *)
Definition names_run (fuel : nat) (e : env) (names : list string)
  : option (list string) :=
  gather (Some names :: map (invoked fuel e) names).

(** The reads of one statement, and the definitions in force after it. *)
Definition stmt_run (fuel : nat) (e : env) (s : stmt) : option (list string) * env :=
  match s with
  | FunctionDef name _ decorator _ =>
      (names_run fuel e (if String.eqb decorator "" then [] else [decorator]),
       (name, s) :: e)
  | _ => (names_run fuel e (stmt_reads s), fold_right unbind e (stmt_binds s))
  end.

Fixpoint cell_run (fuel : nat) (e : env) (c : cell) : option (list string) * env :=
  match c with
  | [] => (Some [], e)
  | s :: rest =>
      let (r, e1) := stmt_run fuel e s in
      let (rs, e2) := cell_run fuel e1 rest in
      (gather [r; rs], e2)
  end.

Fixpoint notebook_run (fuel : nat) (e : env) (nb : notebook)
  : list (option (list string)) :=
  match nb with
  | [] => []
  | c :: rest =>
      let (r, e1) := cell_run fuel e c in r :: notebook_run fuel e1 rest
  end.

(** The names each cell reads when the notebook is run from the top; calls
    cannot nest deeper than there are definitions unless they recurse. *)
Definition run_reads (nb : notebook) : list (option (list string)) :=
  notebook_run (List.length (functions nb)) [] nb.

Definition is_some {A} (o : option A) : bool :=
  match o with Some _ => true | None => false end.

(** No chain of calls was cut short. *)
Definition run_reads_complete (nb : notebook) : bool :=
  forallb is_some (run_reads nb).

(** [x = create_model(f)] *)
Definition is_create_model (s : stmt) : bool :=
  match s with
  | Assign _ (Call (Name g) [Name _]) => String.eqb g "create_model"
  | _ => false
  end.

(** Outside the [def]s, a function of the notebook is named only as the
    argument of [create_model]. *)
Definition functions_run_by_create_model (nb : notebook) : bool :=
  forallb (fun s =>
             match s with
             | FunctionDef _ _ _ _ => true
             | _ =>
                 is_create_model s
                 || negb (existsb (fun x => mem x (map (fun f => function_name (snd f))
                                                       (functions nb)))
                                  (stmt_reads s))
             end) (concat nb).

(** Cells (numbered from 1) that assign a variable, and cells that read it
    when they run. *)
Definition assigners (nb : notebook) (x : string) : list nat :=
  positions (fun c => mem x (assigned c)) nb 1.

Definition readers (nb : notebook) (x : string) : list nat :=
  positions (fun r => match r with Some names => mem x names | None => false end)
            (run_reads nb) 1.

Definition variables (nb : notebook) : list string :=
  nodup string_dec (flat_map assigned nb).

(** Every cell that reads [x] also assigns it. *)
Definition confined (nb : notebook) (x : string) : bool :=
  forallb (fun i => existsb (Nat.eqb i) (assigners nb x)) (readers nb x).

Definition escaping (nb : notebook) : list string :=
  filter (fun x => negb (confined nb x)) (variables nb).

(** Every cell that reads [x] is, or comes after, a cell that assigns it. *)
Definition defined_before_use (nb : notebook) : bool :=
  forallb (fun x =>
             forallb (fun i => existsb (fun j => j <=? i)%nat (assigners nb x))
                     (readers nb x))
          (variables nb).

(** Module-level variables a function body reads. *)
Definition global_reads (nb : notebook) (f : stmt) : list string :=
  filter (fun x => mem x (variables nb)) (nodup string_dec (stmt_reads f)).

(** Names a notebook imports from the SDK's packages. *)
Definition sdk_names (nb : notebook) : list string :=
  flat_map (fun s => match s with
                     | ImportFrom m names =>
                         if String.prefix "classiq" m then names else []
                     | _ => []
                     end) (concat nb).

Inductive kind := SdkCall | RepoCall | Declaration | InplaceArithmetic | Other.

(** The kind of a statement of a function body: a call of an SDK name, a
    call of a function of the notebook, the declaration of a local quantum
    variable ([QArray], [QBit]), or an in-place arithmetic assignment. *)
Definition classify (nb : notebook) (s : stmt) : kind :=
  match s with
  | Expr (Call (Name f) _) =>
      if mem f (map (fun f => function_name (snd f)) (functions nb)) then RepoCall
      else if mem f (sdk_names nb) then SdkCall
      else Other
  | Assign _ (Call (Name f) _)
  | Assign _ (Call (Subscript (Name f) _) _) =>
      if (String.eqb f "QArray" || String.eqb f "QBit")%bool then Declaration else Other
  | AugAssign _ _ _ => InplaceArithmetic
  | _ => Other
  end.

Definition kind_eqb (a b : kind) : bool :=
  match a, b with
  | SdkCall, SdkCall | RepoCall, RepoCall | Declaration, Declaration
  | InplaceArithmetic, InplaceArithmetic | Other, Other => true
  | _, _ => false
  end.

(** The body is nothing but calls of SDK names. *)
Definition sdk_call_sequence (nb : notebook) (f : stmt) : bool :=
  forallb (fun s => kind_eqb (classify nb s) SdkCall) (function_body f).

Definition has_kind (nb : notebook) (k : kind) (f : stmt) : bool :=
  existsb (fun s => kind_eqb (classify nb s) k) (function_body f).

(** Every [assert] of the repository's notebooks, with its notebook. *)
Definition asserts : list (string * expr) :=
  flat_map (fun nb => map (pair (fst nb)) (flat_map stmt_asserts (concat (snd nb))))
           notebooks.

(** Names the values assigned to [x] at module level are computed from. *)
Definition assigned_from (nb : notebook) (x : string) : list string :=
  flat_map (fun s => match s with
                     | Assign t v => if String.eqb t x then expr_reads v else []
                     | _ => []
                     end) (concat nb).

(** The names, and what they are computed from through at most [n]
    assignments. *)
Fixpoint computed_from (n : nat) (nb : notebook) (names : list string) : list string :=
  match n with
  | O => names
  | S k =>
      computed_from k nb
        (nodup string_dec (names ++ flat_map (assigned_from nb) names))
  end.

(** The module-level variables the test of an [assert] is computed from. *)
Definition checked_variables (nb : notebook) (test : expr) : list string :=
  filter (fun x => mem x (variables nb))
         (computed_from (List.length (variables nb)) nb
            (nodup string_dec (expr_reads test))).

(** A cell without any generator expression. *)
Definition straight_line (c : cell) : bool := (cell_loops c =? 0)%nat.

(** The functions of a notebook whose body has a statement of kind [k]. *)
Definition functions_with (k : kind) (nb : string * notebook)
  : list (string * nat * string) :=
  map (fun f => (fst nb, fst f, function_name (snd f)))
      (filter (fun f => has_kind (snd nb) k (snd f)) (functions (snd nb))).

(** The functions of a notebook that read module-level variables. *)
Definition functions_reading_globals (nb : notebook)
  : list (nat * string * list string) :=
  flat_map (fun f => match global_reads nb (snd f) with
                     | [] => []
                     | xs => [(fst f, function_name (snd f), xs)]
                     end) (functions nb).

(** The cells that contain a generator expression: notebook, cell, count. *)
Definition looping_cells : list (string * nat * nat) :=
  flat_map (fun nb =>
              flat_map (fun ic : nat * cell =>
                          if (0 <? cell_loops (snd ic))%nat
                          then [(fst nb, fst ic, cell_loops (snd ic))] else [])
                       (combine (seq 1 (List.length (snd nb))) (snd nb)))
           notebooks.

End Repo.

(** ** Other values of the module-level variables, to compare runs with. *)

Module Inputs.

Definition uniform_globals : QMCI.Globals :=
  {| QMCI.g_sp_num_qubits := 3;
     QMCI.g_probabilities := [1 # 8; 1 # 8; 1 # 8; 1 # 8; 1 # 8; 1 # 8; 1 # 8; 1 # 8];
     QMCI.g_slope := 1;
     QMCI.g_offset := 0;
     QMCI.g_n_qpe := 3 |}.

(** The notebook's values, except for the two sizes. *)
Definition resized_globals : QMCI.Globals :=
  {| QMCI.g_sp_num_qubits := 5;
     QMCI.g_probabilities := QMCI.probabilities;
     QMCI.g_slope := QMCI.slope;
     QMCI.g_offset := QMCI.offset;
     QMCI.g_n_qpe := 7 |}.

Definition counts_75_25 : SwapTest.counts_t :=
  [("0"%string, 75%Z); ("1"%string, 25%Z)].

End Inputs.

(** ** The state-loading cell of the QMCI notebook for any register size. *)

Module QMCISizes.

(** [np.linspace(0, 1, 2**sp_num_qubits) / sum(np.linspace(0, 1,
    2**sp_num_qubits))] as a function of [sp_num_qubits]. *)
Definition probabilities_for (sp_num_qubits : Z) : list Q :=
  Np.divide (Np.linspace 0 1 (Z.to_nat (2 ^ sp_num_qubits)))
            (Np.sumQ (Np.linspace 0 1 (Z.to_nat (2 ^ sp_num_qubits)))).

End QMCISizes.

(** ** Post-processing of the QMCI execution result (cells 11 to 13). *)

Module QMCIPost.

(** One entry of [res.parsed_counts]: [state["phase"]] and [shots]. *)
Record sampled_state := { phase : Q; shots : Z }.

(** A Python [dict] from phases to shots, in insertion order. *)
Definition dict := list (Q * Z).

(** [d[k] = v]: an existing key keeps its place and gets the new value, a
    new key goes to the end. *)
Fixpoint setitem (d : dict) (k : Q) (v : Z) : dict :=
  match d with
  | [] => [(k, v)]
  | (k', v') :: rest =>
      if Qeq_bool k' k then (k', v) :: rest else (k', v') :: setitem rest k v
  end.

(** [d.get(k)] *)
Fixpoint get (d : dict) (k : Q) : option Z :=
  match d with
  | [] => None
  | (k', v) :: rest => if Qeq_bool k' k then Some v else get rest k
  end.

Definition keys (d : dict) : list Q := map fst d.

(** [phases_counts = dict((sampled_state.state["phase"], sampled_state.shots)
                          for sampled_state in res.parsed_counts)] *)
Definition phases_counts (parsed_counts : list sampled_state) : dict :=
  fold_left (fun d s => setitem d (phase s) (shots s)) parsed_counts [].

(** Python's [max(iterable, key=f)] after the first element: a later
    element replaces the best one only when its key is strictly larger. *)
Fixpoint max_from (f : Q -> Z) (best : Q) (rest : list Q) : Q :=
  match rest with
  | [] => best
  | k :: rest' => if (f best <? f k)%Z then max_from f k rest' else max_from f best rest'
  end.

(** The shots [phases_counts.get] hands to [max] as the key of a phase. *)
Definition count (d : dict) (k : Q) : Z :=
  match get d k with Some v => v | None => 0%Z end.

(** [max(phases_counts, key=phases_counts.get)]; [None] is the
    [ValueError] Python raises on an empty dictionary. *)
Definition max_phase (d : dict) : option Q :=
  match keys d with
  | [] => None
  | k :: rest => Some (max_from (count d) k rest)
  end.

(** [np.sin(np.pi * phase) ** 2] *)
Definition measured_amplitude (p : Q) : R := ((sin (PI * Q2R p)) ^ 2)%R.

(** The values the [phase] register can take: [allocate_num(n_qpe, False,
    n_qpe, phase)] declares an unsigned number of [n_qpe] bits, all of them
    fraction digits. *)
Definition phase_grid : list Q :=
  map (fun k => inject_Z (Z.of_nat k) / inject_Z (2 ^ QMCI.n_qpe))%Q
      (seq 0 (Z.to_nat (2 ^ QMCI.n_qpe))).

End QMCIPost.

(** ** The verification cells of the swap-test notebook, run in sequence. *)

Module SwapTestRun.

(** What running cells 6 and 8 ends in: an exception of cell 6, or the
    outcome of the [assert] of cell 8. *)
Inductive result := Raised (e : SwapTest.exn) | Checked (o : SwapTest.outcome).

Definition verify (rnd : R -> R) (counts : SwapTest.counts_t) (exact_overlap : R)
  : result :=
  match SwapTest.overlap_from_swap_test rnd counts with
  | inl e => Raised e
  | inr overlap => Checked (SwapTest.tolerance_cell overlap (SwapTest.Finite exact_overlap))
  end.

(** The squared Euclidean norm of a vector. *)
Definition sum_squares (v : list R) : R := Np.sumR (map (fun x => x * x)%R v).

End SwapTestRun.

(** ** What the gates do to one qubit.

    The oracles of the notebooks act on a register in a computational-basis
    state and on one further qubit, the target, in a state
    [a0 |0> + a1 |1>] with real amplitudes.  On such states the gates [X],
    [H], [Z], the global phase [U(0, 0, 0, pi)] and a [control] on the basis
    register have the textbook action below; [within_apply(compute, action)]
    is [compute], [action], then the inverse of [compute], as the QMCI
    notebook describes it.  Calls outside this fragment have no meaning here
    ([None]). *)

Module Sem.

Definition amp := (R * R)%type.

Definition X_gate (a : amp) : amp := (snd a, fst a).

Definition Z_gate (a : amp) : amp := (fst a, (- snd a)%R).

Definition H_gate (a : amp) : amp :=
  (((fst a + snd a) / sqrt 2)%R, ((fst a - snd a) / sqrt 2)%R).

Definition negate (a : amp) : amp := ((- fst a)%R, (- snd a)%R).

(** The target's wire and amplitudes, and the bit every other wire holds. *)
Record state := { target : nat; amplitude : amp; bits : nat -> bool }.

Definition set_amplitude (s : state) (a : amp) : state :=
  {| target := target s; amplitude := a; bits := bits s |}.

Definition flip (s : state) (w : nat) : state :=
  {| target := target s;
     amplitude := amplitude s;
     bits := fun v => if (v =? w)%nat then negb (bits s v) else bits s v |}.

(** The number a register holds, first wire least significant. *)
Fixpoint value (bits : nat -> bool) (r : Sdk.qvar) : Z :=
  match r with
  | [] => 0
  | w :: r' => Z.b2z (bits w) + 2 * value bits r'
  end.

(** The inverse of a call of the fragment, as a list of calls. *)
Fixpoint adjoint (c : Sdk.call) : list Sdk.call :=
  match c with
  | Sdk.X _ | Sdk.H _ | Sdk.Z _ => [c]
  | Sdk.control_eq r v b =>
      [Sdk.control_eq r v (fold_left (fun acc x => adjoint x ++ acc) b [])]
  | _ => [Sdk.invert [c]]
  end.

(** The inverse of a sequence: the inverses, in reverse order. *)
Definition adjoint_list (l : list Sdk.call) : list Sdk.call :=
  fold_left (fun acc x => adjoint x ++ acc) l [].

(** [within_apply] and [invert] written out as gate sequences. *)
Fixpoint flatten (c : Sdk.call) : list Sdk.call :=
  match c with
  | Sdk.within_apply compute action =>
      flat_map flatten compute ++ flat_map flatten action
      ++ adjoint_list (flat_map flatten compute)
  | Sdk.invert operand => adjoint_list (flat_map flatten operand)
  | Sdk.control_eq r v b => [Sdk.control_eq r v (flat_map flatten b)]
  | _ => [c]
  end.

Definition is_zero (p : Sdk.param) : bool :=
  match p with Sdk.Lit q => Qeq_bool q 0 | Sdk.NpPi => false end.

(** One call of a flattened sequence. *)
Fixpoint exec (c : Sdk.call) (s : state) : option state :=
  match c with
  | Sdk.X [w] =>
      Some (if (w =? target s)%nat then set_amplitude s (X_gate (amplitude s))
            else flip s w)
  | Sdk.H [w] =>
      if (w =? target s)%nat then Some (set_amplitude s (H_gate (amplitude s)))
      else None
  | Sdk.Z [w] =>
      Some (if (w =? target s)%nat then set_amplitude s (Z_gate (amplitude s))
            else if bits s w then set_amplitude s (negate (amplitude s))
            else s)
  | Sdk.U theta phi lam Sdk.NpPi [w] =>
      if (is_zero theta && is_zero phi && is_zero lam)%bool
      then Some (set_amplitude s (negate (amplitude s)))
      else None
  | Sdk.control_eq r v b =>
      if existsb (Nat.eqb (target s)) r then None
      else if (value (bits s) r =? v)%Z then
        (fix exec_list (l : list Sdk.call) (s : state) : option state :=
           match l with
           | [] => Some s
           | x :: l' => match exec x s with
                        | Some s' => exec_list l' s'
                        | None => None
                        end
           end) b s
      else Some s
  | _ => None
  end.

Fixpoint exec_list (l : list Sdk.call) (s : state) : option state :=
  match l with
  | [] => Some s
  | x :: l' => match exec x s with
               | Some s' => exec_list l' s'
               | None => None
               end
  end.

Definition run (calls : list Sdk.call) (s : state) : option state :=
  exec_list (flat_map flatten calls) s.

End Sem.

(** ** The quantum functions of the phase-kickback notebook. *)

Module PhaseKickback.

(** [allocate(out=target, num_qubits=1); X(target); H(target)]: the gates
    applied to the freshly allocated qubit, which starts in [|0>]. *)
Definition prepare_minus (target : Sdk.qvar) : list Sdk.call :=
  [Sdk.X target; Sdk.H target].

(** [target ^= x == 0]: the target is flipped when [x] holds 0. *)
Definition oracle_function (target x : Sdk.qvar) : list Sdk.call :=
  [Sdk.control_eq x 0 [Sdk.X target]].

(** [within_apply(compute=lambda: prepare_minus(target),
                  action=lambda: oracle_function(target, x))] *)
Definition oracle_phase_kickback (target x : Sdk.qvar) : list Sdk.call :=
  [Sdk.within_apply (prepare_minus target) (oracle_function target x)].

(** The state right after [allocate]: the new qubit on wire [w] is [|0>]. *)
Definition allocated (w : nat) (bits : nat -> bool) : Sem.state :=
  {| Sem.target := w; Sem.amplitude := (1%R, 0%R); Sem.bits := bits |}.

End PhaseKickback.

(** ** What the functions of [whitebox_fuzzing.qmod] do. *)

Module WhiteboxSem.

(** [allocate<1>(out); X(out); H(out)] on the amplitudes of [out], and its
    inverse. *)
Definition prep_minus (out : Sem.amp) : Sem.amp := Sem.H_gate (Sem.X_gate out).

Definition prep_minus_inverse (out : Sem.amp) : Sem.amp :=
  Sem.X_gate (Sem.H_gate out).

(** [res ^= ((x + y) < 9) and (((x * y) % 4) == 1)] on a result qubit in
    superposition, [x] and [y] holding numbers. *)
Definition my_predicate (x y : Z) (res : Sem.amp) : Sem.amp :=
  if ((x + y <? 9) && ((x * y) mod 4 =? 1))%Z then Sem.X_gate res else res.

(** [aux: qbit; within { prep_minus(aux); } apply { predicate(aux); }]: the
    amplitudes [aux] is left with. *)
Definition my_oracle (predicate : Sem.amp -> Sem.amp) : Sem.amp :=
  prep_minus_inverse (predicate (prep_minus (1%R, 0%R))).

(** [joined: qnum<x.len + y.len, False, 0>; {x, y} -> joined;
     control (joined == 0) { X(res); } joined -> {x, y};] on numbers, [x]
    taking the [x_len] low bits of [joined]. *)
Definition zero_predicate (x_len : Z) (x y : Z) (res : bool) : Z * Z * bool :=
  let joined := (x + 2 ^ x_len * y)%Z in
  let res' := if (joined =? 0)%Z then negb res else res in
  ((joined mod 2 ^ x_len)%Z, (joined / 2 ^ x_len)%Z, res').

(** The numbers an [allocate_num<bits, False, 0>] register can hold. *)
Definition register_values (bits : Z) : list Z :=
  map Z.of_nat (seq 0 (Z.to_nat (2 ^ bits))).

(** The inputs of [main] on which [my_predicate] flips its result. *)
Definition marked : list (Z * Z) :=
  filter (fun xy => WhiteboxFuzzing.my_predicate_action (fst xy) (snd xy) false)
         (list_prod (register_values 6) (register_values 6)).

End WhiteboxSem.

(** ** The wires the QMCI quantum functions act on. *)

Module Wiring.

(** Every wire a call mentions. *)
Fixpoint wires (c : Sdk.call) : list nat :=
  match c with
  | Sdk.inplace_prepare_state _ _ t => t
  | Sdk.linear_pauli_rotations _ _ _ x q => x ++ q
  | Sdk.X t | Sdk.H t | Sdk.Z t | Sdk.U _ _ _ _ t => t
  | Sdk.within_apply c a => flat_map wires c ++ flat_map wires a
  | Sdk.invert o => flat_map wires o
  | Sdk.control_eq r _ o => r ++ flat_map wires o
  | Sdk.bind s d => concat s ++ concat d
  end.

(** [allocate(n, out)] when [next] wires are in use: [out] gets the next
    [n] wires; the size cannot be negative. *)
Definition allocate (n : Z) (next : nat) : option (Sdk.qvar * nat) :=
  if (0 <=? n)%Z then Some (seq next (Z.to_nat n), (next + Z.to_nat n)%nat) else None.

(** The [main] of cell 7:
    [allocate(sp_num_qubits, io); allocate(1, ind); bind([ind, io], state);
     my_grover_operator(state)].  It hands back the registers [io] and [ind]
    it allocated, the output [state], and the calls [my_grover_operator]
    emitted. *)
Definition main (g : QMCI.Globals)
  : option (Sdk.qvar * Sdk.qvar * Sdk.qvar * list Sdk.call) :=
  match allocate (QMCI.g_sp_num_qubits g) 0 with
  | None => None
  | Some (io, next) =>
      match allocate 1 next with
      | None => None
      | Some (ind, _) =>
          match Sdk.bind_wires [ind; io] [List.length ind + List.length io]%nat with
          | Some [state] =>
              match QMCI.my_grover_operator g state with
              | Some (state', calls) => Some (io, ind, state', calls)
              | None => None
              end
          | _ => None
          end
      end
  end.

(** The module-level variables of the notebook when [sp_num_qubits] is set
    to another value. *)
Definition globals_for (sp_num_qubits : Z) : QMCI.Globals :=
  {| QMCI.g_sp_num_qubits := sp_num_qubits;
     QMCI.g_probabilities := QMCISizes.probabilities_for sp_num_qubits;
     QMCI.g_slope := QMCI.slope;
     QMCI.g_offset := QMCI.offset;
     QMCI.g_n_qpe := QMCI.n_qpe |}.

End Wiring.

(** ** The Hamiltonian of the flexible-QPE example. *)

Module QPEFlexible.

(** [PauliTerm(pauli=[...], coefficient=...)] *)
Record PauliTerm := { pauli : list Sdk.Pauli; coefficient : Q }.

Definition QPE_RESOLUTION : Z := 2.

Definition HAMILTONIAN : list PauliTerm :=
  [ {| pauli := [Sdk.PauliI; Sdk.PauliZ]; coefficient := - (125 # 1000) |};
    {| pauli := [Sdk.PauliZ; Sdk.PauliI]; coefficient := - (25 # 100) |};
    {| pauli := [Sdk.PauliI; Sdk.PauliI]; coefficient := 375 # 1000 |} ].

(** The eigenvalue of a Pauli on a basis bit; [X] and [Y] are not diagonal. *)
Definition eigenvalue (p : Sdk.Pauli) (b : bool) : option Q :=
  match p with
  | Sdk.PauliI => Some 1
  | Sdk.PauliZ => Some (if b then - (1) else 1)
  | Sdk.PauliX | Sdk.PauliY => None
  end.

(** The eigenvalue of a Pauli string on the bits it is paired with. *)
Fixpoint string_eigenvalue (ps : list Sdk.Pauli) (bs : list bool) : option Q :=
  match ps, bs with
  | [], [] => Some 1
  | p :: ps', b :: bs' =>
      match eigenvalue p b, string_eigenvalue ps' bs' with
      | Some e, Some e' => Some (e * e')
      | _, _ => None
      end
  | _, _ => None
  end.

(** The diagonal entry of a Hamiltonian at the given bits. *)
Fixpoint energy (h : list PauliTerm) (bs : list bool) : option Q :=
  match h with
  | [] => Some 0
  | t :: h' =>
      match string_eigenvalue (pauli t) bs, energy h' bs with
      | Some e, Some e' => Some (coefficient t * e + e')
      | _, _ => None
      end
  end.

(** The bits of a two-qubit basis state, the second qubit first: the
    notebook writes the term with [pauli=[Pauli.I, Pauli.Z]] as [Z_0 I_1]. *)
Definition bits_of (state : Z) : list bool :=
  [Z.testbit state 1; Z.testbit state 0].

End QPEFlexible.

(** ** The amplitude-loading usage example. *)

Module AmplitudeLoading.

Definition VAR_SIZE : Z := 4.

(** The values of [x] after [allocate_num(var_size, False, var_size, x)]:
    unsigned, [var_size] bits, all of them fraction digits. *)
Definition x_values (var_size : Z) : list Q :=
  map (fun k => inject_Z (Z.of_nat k) / inject_Z (2 ^ var_size))%Q
      (seq 0 (Z.to_nat (2 ^ var_size))).

(** The expression on the right of [ind *= x**2]. *)
Definition f (x : Q) : Q := x ^ 2.

(** The amplitudes of [ind] the notebook states for amplitude loading:
    [sqrt(1 - f(x)^2) |0> + f(x) |1>]. *)
Definition loaded (x : Q) : R * R :=
  (sqrt (1 - Q2R (f x) * Q2R (f x)), Q2R (f x)).

End AmplitudeLoading.

(** ** Facts *)

(** *** The probability vector and the reference amplitude of the QMCI notebook *)

(** C8: [probabilities] has exactly 8 entries, entry [i] is [i/28], every
    entry is nonnegative and the entries sum to exactly 1 (exact rational
    arithmetic). *)
Theorem probabilities_valid_distribution :
  List.length QMCI.probabilities = 8%nat /\
  Forall2 Qeq QMCI.probabilities
          (map (fun i => inject_Z (Z.of_nat i) / 28)%Q (seq 0 8)) /\
  Forall (fun p => 0 <= p)%Q QMCI.probabilities /\
  (Np.sumQ QMCI.probabilities == 1)%Q.
Proof.
  split; [reflexivity|].
  split.
  { repeat constructor. }
  split.
  { repeat constructor; discriminate. }
  reflexivity.
Qed.

Lemma probabilities_nth_R (n : nat) :
  (n < 8)%nat -> Q2R (nth n QMCI.probabilities 0%Q) = (INR n / 28)%R.
Proof.
  intros Hn.
  assert (Hq : (nth n QMCI.probabilities 0 == inject_Z (Z.of_nat n) / 28)%Q).
  { do 8 (destruct n as [|n]; [reflexivity|]). lia. }
  rewrite (Qeq_eqR _ _ Hq).
  do 8 (destruct n as [|n]; [unfold Q2R; simpl; lra|]). lia.
Qed.

Lemma exact_amplitude_term_eq (n : nat) :
  (n < 8)%nat ->
  QMCI.exact_amplitude_term n = ((sin (0.25 * INR n + 0.2)) ^ 2 * INR n / 28)%R.
Proof.
  intros Hn. unfold QMCI.exact_amplitude_term.
  rewrite (probabilities_nth_R n Hn).
  replace (0.5 * INR n / 2 + 0.4 / 2)%R with (0.25 * INR n + 0.2)%R by lra.
  lra.
Qed.

Section SineBounds.

Local Open Scope R_scope.

(** Taylor polynomials of degree 11 and 13 enclose the sine on [0, 3]. *)
Lemma sin_between (a l u : R) :
  0 <= a -> a <= 3 -> l <= sin_approx a 5 -> sin_approx a 6 <= u ->
  l <= sin a <= u.
Proof.
  intros H0 H3 Hl Hu.
  assert (HPI : a <= PI) by (pose proof PI2_3_2; lra).
  pose proof (sin_bound a 2 H0 HPI) as [B1 B2].
  change (2 * 2 + 1)%nat with 5%nat in B1.
  change (2 * (2 + 1))%nat with 6%nat in B2.
  lra.
Qed.

Lemma sqr_between (s l u : R) :
  0 <= l -> l <= s <= u -> l ^ 2 <= s ^ 2 <= u ^ 2.
Proof.
  intros Hl [H1 H2]. split; apply pow_incr; lra.
Qed.

Ltac eval_sin_approx :=
  unfold sin_approx, sin_term; cbn [sum_f_R0 Nat.mul Nat.add];
  repeat rewrite fact_simpl; repeat rewrite mult_INR;
  cbn [fact INR pow]; lra.

Ltac sin_sq_at k a :=
  replace (0.25 * INR k + 0.2) with a by (cbn [INR]; lra);
  apply sqr_between; [lra | apply sin_between; [lra | lra | eval_sin_approx ..]].

Lemma target_expectation_bounds :
  0.8335 < QMCI.target_expectation < 0.8345.
Proof.
  unfold QMCI.target_expectation, Np.sumR.
  cbn [seq map fold_left].
  assert (H1 : 0.434964 ^ 2 <= sin (0.25 * INR 1 + 0.2) ^ 2 <= 0.434967 ^ 2)
    by sin_sq_at 1%nat 0.45.
  assert (H2 : 0.644216 ^ 2 <= sin (0.25 * INR 2 + 0.2) ^ 2 <= 0.644219 ^ 2)
    by sin_sq_at 2%nat 0.7.
  assert (H3 : 0.813414 ^ 2 <= sin (0.25 * INR 3 + 0.2) ^ 2 <= 0.813417 ^ 2)
    by sin_sq_at 3%nat 0.95.
  assert (H4 : 0.932038 ^ 2 <= sin (0.25 * INR 4 + 0.2) ^ 2 <= 0.932041 ^ 2)
    by sin_sq_at 4%nat 1.2.
  assert (H5 : 0.992711 ^ 2 <= sin (0.25 * INR 5 + 0.2) ^ 2 <= 0.992714 ^ 2)
    by sin_sq_at 5%nat 1.45.
  assert (H6 : 0.991663 ^ 2 <= sin (0.25 * INR 6 + 0.2) ^ 2 <= 0.991666 ^ 2)
    by sin_sq_at 6%nat 1.7.
  assert (H7 : 0.928957 ^ 2 <= sin (0.25 * INR 7 + 0.2) ^ 2 <= 0.928961 ^ 2)
    by sin_sq_at 7%nat 1.95.
  set (s0 := sin (0.25 * INR 0 + 0.2) ^ 2).
  set (s1 := sin (0.25 * INR 1 + 0.2) ^ 2) in *.
  set (s2 := sin (0.25 * INR 2 + 0.2) ^ 2) in *.
  set (s3 := sin (0.25 * INR 3 + 0.2) ^ 2) in *.
  set (s4 := sin (0.25 * INR 4 + 0.2) ^ 2) in *.
  set (s5 := sin (0.25 * INR 5 + 0.2) ^ 2) in *.
  set (s6 := sin (0.25 * INR 6 + 0.2) ^ 2) in *.
  set (s7 := sin (0.25 * INR 7 + 0.2) ^ 2) in *.
  clearbody s0 s1 s2 s3 s4 s5 s6 s7.
  cbn [INR]. lra.
Qed.

End SineBounds.

(** C9: the classically computed reference amplitude of the last QMCI cell
    equals [(1/28) * sum_{k=0}^{7} sin^2(0.25 k + 0.2) * k]; slope 0.5 and
    offset 0.4 halve to the coefficients 0.25 and 0.2 of the target; and the
    value rounds to 0.834. *)
Theorem exact_amplitude_is_target_expectation :
  QMCI.exact_amplitude = QMCI.target_expectation /\
  (QMCI.slope / 2 == 25 # 100)%Q /\ (QMCI.offset / 2 == 2 # 10)%Q /\
  (0.8335 < QMCI.exact_amplitude < 0.8345)%R.
Proof.
  assert (E : QMCI.exact_amplitude = QMCI.target_expectation).
  { unfold QMCI.exact_amplitude, QMCI.target_expectation, Np.sumR.
    change (Z.to_nat (2 ^ 3)) with 8%nat.
    cbn [seq map fold_left].
    rewrite !exact_amplitude_term_eq by lia.
    lra. }
  split; [exact E|].
  split; [reflexivity|].
  split; [reflexivity|].
  rewrite E. exact target_expectation_bounds.
Qed.

(** *** The swap-test notebook *)

Section SumFacts.

Local Open Scope R_scope.

Lemma sumR_acc (l : list R) (a : R) :
  fold_left Rplus l a = a + Np.sumR l.
Proof.
  unfold Np.sumR. revert a.
  induction l as [|x l IH]; intros a; cbn [fold_left].
  - lra.
  - rewrite (IH (a + x)), (IH (0 + x)). lra.
Qed.

Lemma sumR_cons (x : R) (l : list R) : Np.sumR (x :: l) = x + Np.sumR l.
Proof. unfold Np.sumR at 1. cbn [fold_left]. rewrite sumR_acc. lra. Qed.

Lemma sumR_squares_nonneg (v : list R) :
  0 <= Np.sumR (map (fun x => x * x) v).
Proof.
  induction v as [|x v IH]; cbn [map].
  - unfold Np.sumR; cbn; lra.
  - rewrite sumR_cons. pose proof (Rle_0_sqr x) as Hx. unfold Rsqr in Hx. lra.
Qed.

Lemma sumR_squares_scaled (v : list R) (n : R) :
  n <> 0 ->
  Np.sumR (map (fun x => x * x) (map (fun x => x / n) v)) =
  Np.sumR (map (fun x => x * x) v) / (n * n).
Proof.
  intros Hn. induction v as [|x v IH]; cbn [map].
  - unfold Np.sumR; cbn. field. exact Hn.
  - rewrite !sumR_cons, IH. field. exact Hn.
Qed.

(** Dividing a nonzero vector by its norm gives a unit vector. *)
Lemma norm_normalized (v : list R) :
  SwapTest.norm v <> 0 ->
  SwapTest.norm (map (fun x => x / SwapTest.norm v) v) = 1.
Proof.
  intros Hn. unfold SwapTest.norm at 1.
  rewrite sumR_squares_scaled by exact Hn.
  unfold SwapTest.norm in *.
  rewrite sqrt_sqrt by apply sumR_squares_nonneg.
  set (S := Np.sumR (map (fun x => x * x) v)) in *.
  assert (HS : S <> 0) by (intros E; apply Hn; rewrite E; apply sqrt_0).
  replace (S / S) with 1 by (field; exact HS).
  apply sqrt_1.
Qed.

End SumFacts.

Section MeasuredOverlap.

Local Open Scope R_scope.

Variable rnd : R -> R.

Lemma np_sqrt_finite (x : R) :
  0 <= x -> SwapTest.np_sqrt rnd x = SwapTest.Finite (rnd (sqrt x)).
Proof.
  intros Hx. unfold SwapTest.np_sqrt.
  destruct (Rlt_dec x 0) as [Hlt|_]; [lra | reflexivity].
Qed.

Lemma np_sqrt_nan (x : R) : x < 0 -> SwapTest.np_sqrt rnd x = SwapTest.NaN.
Proof.
  intros Hx. unfold SwapTest.np_sqrt.
  destruct (Rlt_dec x 0) as [_|Hge]; [reflexivity | lra].
Qed.

Lemma overlap_from_swap_test_eq (counts : SwapTest.counts_t) (c0 : Z) :
  SwapTest.getitem counts "0" = Some c0 ->
  SwapTest.sumZ (SwapTest.values counts) <> 0%Z ->
  SwapTest.overlap_from_swap_test rnd counts
  = inr (SwapTest.np_sqrt rnd
           (rnd (rnd (2 * IZR c0 / IZR (SwapTest.sumZ (SwapTest.values counts))) - 1))).
Proof.
  intros Hget Ht. unfold SwapTest.overlap_from_swap_test. rewrite Hget.
  destruct (Z.eqb_spec (SwapTest.sumZ (SwapTest.values counts)) 0) as [E|_];
    [contradiction|].
  rewrite mult_IZR. reflexivity.
Qed.

Lemma ratio_bounds (c0 total : Z) :
  (0 < total)%Z ->
  ((total <= 2 * c0)%Z -> 1 <= 2 * IZR c0 / IZR total) /\
  ((c0 <= total)%Z -> 2 * IZR c0 / IZR total <= 2) /\
  ((2 * c0 < total)%Z -> (total <= 2 ^ 53)%Z -> 2 * IZR c0 / IZR total <= 1 - / 2 ^ 53).
Proof.
  intros Ht.
  assert (H0 : 0 < IZR total) by (apply IZR_lt; exact Ht).
  assert (Hinv : 0 < / IZR total) by (apply Rinv_0_lt_compat; exact H0).
  assert (Hone : IZR total * / IZR total = 1) by (field; lra).
  unfold Rdiv.
  split; [|split].
  - intros Hc. apply IZR_le in Hc. rewrite mult_IZR in Hc.
    rewrite <- Hone. apply Rmult_le_compat_r; lra.
  - intros Hc. apply IZR_le in Hc.
    replace 2 with (2 * IZR total * / IZR total) at 2 by (field; lra).
    apply Rmult_le_compat_r; lra.
  - intros Hc Hb.
    assert (Hc' : 2 * IZR c0 + 1 <= IZR total).
    { rewrite <- mult_IZR, <- plus_IZR. apply IZR_le. lia. }
    assert (Hb' : IZR total <= 2 ^ 53).
    { rewrite pow_IZR. apply IZR_le. exact Hb. }
    assert (Hp : / 2 ^ 53 <= / IZR total) by (apply Rinv_le_contravar; lra).
    apply Rle_trans with (r2 := (IZR total - 1) * / IZR total).
    + apply Rmult_le_compat_r; lra.
    + replace ((IZR total - 1) * / IZR total) with (1 - / IZR total) by (field; lra).
      lra.
Qed.

Hypothesis rounds : SwapTest.rounds_like_float64 rnd.

Lemma radicand_nonneg (c0 total : Z) :
  (0 < total)%Z -> (total <= 2 * c0)%Z ->
  0 <= rnd (rnd (2 * IZR c0 / IZR total) - 1).
Proof.
  intros Ht Hc.
  pose proof (proj1 (ratio_bounds c0 total Ht) Hc) as H1.
  apply (SwapTest.rnd_monotone rnd rounds) in H1.
  rewrite (SwapTest.rnd_1 rnd rounds) in H1.
  rewrite <- (SwapTest.rnd_0 rnd rounds).
  apply (SwapTest.rnd_monotone rnd rounds). lra.
Qed.

Lemma radicand_at_most_1 (c0 total : Z) :
  (0 < total)%Z -> (c0 <= total)%Z ->
  rnd (rnd (2 * IZR c0 / IZR total) - 1) <= 1.
Proof.
  intros Ht Hc.
  pose proof (proj1 (proj2 (ratio_bounds c0 total Ht)) Hc) as H1.
  apply (SwapTest.rnd_monotone rnd rounds) in H1.
  rewrite (SwapTest.rnd_2 rnd rounds) in H1.
  rewrite <- (SwapTest.rnd_1 rnd rounds) at 2.
  apply (SwapTest.rnd_monotone rnd rounds). lra.
Qed.

Lemma radicand_negative (c0 total : Z) :
  (0 < total)%Z -> (total <= 2 ^ 53)%Z -> (2 * c0 < total)%Z ->
  rnd (rnd (2 * IZR c0 / IZR total) - 1) < 0.
Proof.
  intros Ht Hb Hc.
  pose proof (proj2 (proj2 (ratio_bounds c0 total Ht)) Hc Hb) as H1.
  apply (SwapTest.rnd_monotone rnd rounds) in H1.
  rewrite (SwapTest.rnd_below_1 rnd rounds) in H1.
  assert (H2 : rnd (rnd (2 * IZR c0 / IZR total) - 1) <= rnd (- / 2 ^ 53)).
  { apply (SwapTest.rnd_monotone rnd rounds). lra. }
  rewrite (SwapTest.rnd_below_0 rnd rounds) in H2.
  assert (Hp : 0 < / 2 ^ 53) by (apply Rinv_0_lt_compat; lra).
  lra.
Qed.

End MeasuredOverlap.









Lemma isclose_finite (x y : R) :
  SwapTest.isclose (SwapTest.Finite x) (SwapTest.Finite y) SwapTest.RTOL = true <->
  (Rabs (x - y) <= 1 / 100000000 + 5 / 100 * Rabs y)%R.
Proof.
  unfold SwapTest.isclose, SwapTest.atol, SwapTest.RTOL.
  replace (Q2R (1 # 100000000)) with (1 / 100000000)%R by (unfold Q2R; cbn; lra).
  replace (Q2R (5 # 100)) with (5 / 100)%R by (unfold Q2R; cbn; lra).
  destruct (Rle_dec _ _) as [H|H]; split; intros H'; try assumption;
    try reflexivity; try discriminate. contradiction.
Qed.

Lemma tolerance_cell_raises (a b : SwapTest.npfloat) :
  (exists m, SwapTest.tolerance_cell a b = SwapTest.AssertionError m) <->
  SwapTest.isclose a b SwapTest.RTOL = false.
Proof.
  unfold SwapTest.tolerance_cell.
  destruct (SwapTest.isclose a b SwapTest.RTOL); split.
  - intros [m Hm]; discriminate.
  - discriminate.
  - reflexivity.
  - intros _. eexists; reflexivity.
Qed.

(** C2: the last swap-test cell raises [AssertionError] exactly when
    [np.isclose(overlap_from_swap_test, exact_overlap, 0.05)] is false, that
    is (on finite values) when [|a - b| > 1e-8 + 0.05 * |b|]; a [nan] always
    raises; and this [assert] is the only one in the repository's notebooks. *)
Theorem tolerance_assertion_is_the_only_check :
  (forall a b : SwapTest.npfloat,
     (exists m, SwapTest.tolerance_cell a b = SwapTest.AssertionError m) <->
     SwapTest.isclose a b SwapTest.RTOL = false) /\
  (forall x y : R,
     SwapTest.tolerance_cell (SwapTest.Finite x) (SwapTest.Finite y) = SwapTest.Passed <->
     (Rabs (x - y) <= 1 / 100000000 + 5 / 100 * Rabs y)%R) /\
  (forall b, exists m,
     SwapTest.tolerance_cell SwapTest.NaN b = SwapTest.AssertionError m) /\
  Repo.asserts = [("swap_test"%string, SwapTestCells.tolerance_test)] /\
  flat_map Py.stmt_asserts SwapTestCells.cell_8 = [SwapTestCells.tolerance_test].
Proof.
  split; [exact tolerance_cell_raises|].
  split.
  { intros x y. rewrite <- isclose_finite. unfold SwapTest.tolerance_cell.
    destruct (SwapTest.isclose _ _ _); split; intros H;
      try reflexivity; discriminate. }
  split.
  { intros b. apply tolerance_cell_raises. reflexivity. }
  split; reflexivity.
Qed.

(** *** The quantum functions of the QMCI notebook *)

(** C5, as stated, fails: with the same argument, [load_probabilities]
    emits a different call when the module-level [probabilities] differs. *)
Lemma load_probabilities_reads_probabilities :
  QMCI.load_probabilities QMCI.notebook_globals [0; 1; 2]%nat <>
  QMCI.load_probabilities Inputs.uniform_globals [0; 1; 2]%nat.
Proof.
  intros H. vm_compute in H. discriminate H.
Qed.

Lemma state_loading_ext (g1 g2 : QMCI.Globals) :
  QMCI.g_probabilities g1 = QMCI.g_probabilities g2 ->
  QMCI.g_slope g1 = QMCI.g_slope g2 ->
  QMCI.g_offset g1 = QMCI.g_offset g2 ->
  forall io ind, QMCI.state_loading g1 io ind = QMCI.state_loading g2 io ind.
Proof.
  intros Hp Hs Ho io ind.
  unfold QMCI.state_loading, QMCI.load_probabilities, QMCI.amplitude_loading.
  rewrite Hp, Hs, Ho. reflexivity.
Qed.

(** C5, amended: the quantum functions read module-level variables
    ([load_probabilities] reads [probabilities], [amplitude_loading] reads
    [slope] and [offset]); two runs with equal arguments agree as soon as
    those variables agree, whatever the other module-level variables hold. *)
Theorem qfuncs_depend_only_on_the_globals_they_read
        (g1 g2 : QMCI.Globals) (io ind : Sdk.qvar) :
  (QMCI.g_probabilities g1 = QMCI.g_probabilities g2 ->
   QMCI.load_probabilities g1 io = QMCI.load_probabilities g2 io) /\
  (QMCI.g_slope g1 = QMCI.g_slope g2 -> QMCI.g_offset g1 = QMCI.g_offset g2 ->
   QMCI.amplitude_loading g1 io ind = QMCI.amplitude_loading g2 io ind) /\
  (QMCI.g_probabilities g1 = QMCI.g_probabilities g2 ->
   QMCI.g_slope g1 = QMCI.g_slope g2 -> QMCI.g_offset g1 = QMCI.g_offset g2 ->
   QMCI.state_loading g1 io ind = QMCI.state_loading g2 io ind /\
   QMCI.my_grover_operator g1 (ind ++ io) = QMCI.my_grover_operator g2 (ind ++ io)) /\
  Repo.functions_reading_globals QMCICells.cells =
    [ (2%nat, "load_probabilities"%string, ["probabilities"%string]);
      (2%nat, "amplitude_loading"%string, ["slope"%string; "offset"%string]);
      (3%nat, "main"%string, ["sp_num_qubits"%string]);
      (7%nat, "main"%string, ["sp_num_qubits"%string]);
      (8%nat, "main"%string, ["sp_num_qubits"%string; "n_qpe"%string]) ].
Proof.
  split; [|split; [|split]].
  - intros Hp. unfold QMCI.load_probabilities. rewrite Hp. reflexivity.
  - intros Hs Ho. unfold QMCI.amplitude_loading. rewrite Hs, Ho. reflexivity.
  - intros Hp Hs Ho.
    split; [apply state_loading_ext; assumption|].
    unfold QMCI.my_grover_operator.
    destruct (QMCI.grover_split (ind ++ io)) as [[i o]|]; [|reflexivity].
    rewrite (state_loading_ext g1 g2 Hp Hs Ho). reflexivity.
  - reflexivity.
Qed.

(** C5, amended, at the notebook's values against values that differ only
    in [sp_num_qubits] and [n_qpe]. *)
Lemma qfuncs_depend_only_on_the_globals_they_read_witness :
  QMCI.load_probabilities QMCI.notebook_globals [1; 2; 3]%nat
    = QMCI.load_probabilities Inputs.resized_globals [1; 2; 3]%nat /\
  QMCI.amplitude_loading QMCI.notebook_globals [1; 2; 3]%nat [0]%nat
    = QMCI.amplitude_loading Inputs.resized_globals [1; 2; 3]%nat [0]%nat /\
  QMCI.my_grover_operator QMCI.notebook_globals [0; 1; 2; 3]%nat
    = QMCI.my_grover_operator Inputs.resized_globals [0; 1; 2; 3]%nat.
Proof.
  destruct (qfuncs_depend_only_on_the_globals_they_read
              QMCI.notebook_globals Inputs.resized_globals [1; 2; 3]%nat [0]%nat)
    as (H1 & H2 & H3 & _).
  split; [exact (H1 eq_refl)|].
  split; [exact (H2 eq_refl eq_refl)|].
  exact (proj2 (H3 eq_refl eq_refl eq_refl)).
Defined.

Lemma grover_split_ok (state : Sdk.qvar) :
  (1 <= List.length state)%nat ->
  QMCI.grover_split state = Some (firstn 1 state, skipn 1 state).
Proof.
  intros HL. unfold QMCI.grover_split, Sdk.QArray.
  destruct (Z.leb_spec 0 (Z.of_nat (List.length state) - 1)) as [_|Hn]; [|lia].
  replace (Z.to_nat (Z.of_nat (List.length state) - 1))
    with (List.length state - 1)%nat by lia.
  unfold Sdk.bind_wires, Sdk.QBit. cbn [concat]. rewrite app_nil_r.
  destruct state as [|w0 rest]; [cbn in HL; lia|].
  cbn [Sdk.deal List.length Nat.leb skipn firstn].
  replace (S (List.length rest) - 1)%nat with (List.length rest) by lia.
  rewrite Nat.leb_refl, skipn_all, firstn_all. reflexivity.
Qed.

Lemma grover_split_ill_defined (state : Sdk.qvar) :
  (List.length state < 1)%nat -> QMCI.grover_split state = None.
Proof.
  intros HL. unfold QMCI.grover_split, Sdk.QArray.
  destruct (Z.leb_spec 0 (Z.of_nat (List.length state) - 1)) as [Hn|_]; [lia|].
  reflexivity.
Qed.




(** *** The shape of the repository's code *)

Local Open Scope string_scope.

(** C1, as stated, fails: the body of [my_predicate] is not a sequence of
    calls of SDK primitives; it is one in-place assignment of an arithmetic
    predicate written in the file. *)
Lemma my_predicate_is_not_a_call_sequence :
  Qmod.sdk_call_sequence WhiteboxFuzzing.file WhiteboxFuzzing.my_predicate = false.
Proof. reflexivity. Qed.

(** C1, amended: every statement of a function body in the notebooks is a
    call of an SDK name, a call of a function of the same notebook, a local
    quantum-variable declaration or an in-place arithmetic assignment; the
    in-place assignments are those of [oracle_function], the amplitude-loading
    [main] and, in the Qmod file, [my_predicate], which flips its result
    exactly when [x + y < 9] and [x * y mod 4 = 1]; the Qmod file calls, apart
    from its own functions and operands, only SDK functions. *)
Theorem function_bodies_are_calls_declarations_and_inplace_arithmetic :
  forallb (fun nb =>
             forallb (fun f => negb (Repo.has_kind (snd nb) Repo.Other (snd f)))
                     (Repo.functions (snd nb)))
          Repo.notebooks = true /\
  flat_map (Repo.functions_with Repo.InplaceArithmetic) Repo.notebooks =
    [ ("phase_kickback", 2%nat, "oracle_function");
      ("phase_kickback", 5%nat, "oracle_function");
      ("amplitude_loading_example", 1%nat, "main") ] /\
  Qmod.functions_with Qmod.is_inplace WhiteboxFuzzing.file = ["my_predicate"] /\
  Qmod.external_calls WhiteboxFuzzing.file =
    ["hadamard_transform"; "allocate"; "H"; "X"; "allocate_num"] /\
  (forall x y res,
     WhiteboxFuzzing.my_predicate_action x y res =
     if ((x + y <? 9) && ((x * y) mod 4 =? 1))%Z then negb res else res) /\
  WhiteboxFuzzing.my_predicate_action 3 3 false = true /\
  WhiteboxFuzzing.my_predicate_action 2 2 false = false.
Proof.
  repeat (split; [reflexivity|]).
  split; [|split; reflexivity].
  intros x y res. unfold WhiteboxFuzzing.my_predicate_action.
  destruct ((x + y <? 9) && ((x * y) mod 4 =? 1))%Z; destruct res; reflexivity.
Qed.

(** C4, as stated, fails: [probabilities] is assigned in cell 2 of the QMCI
    notebook and read by later cells, and the [assert] of the swap-test
    notebook checks values computed from [amps1], [amps2] and the counts in
    [res]. *)
Lemma probabilities_is_read_outside_its_cell :
  Repo.confined QMCICells.cells "probabilities" = false /\
  Repo.readers QMCICells.cells "probabilities" = [3; 7; 8; 13]%nat /\
  forallb (fun x => Py.mem x (Repo.checked_variables SwapTestCells.cells
                                SwapTestCells.tolerance_test))
          ["amps1"; "amps2"; "res"] = true.
Proof. repeat split; reflexivity. Qed.

(** C4, amended: when the cells of a notebook run in order, a module-level
    variable is read only in the cell that assigns it or in later cells.
    The arrays and dictionaries do outlive their cell: [probabilities],
    assigned in QMCI cell 2, is read when cells 3, 7 and 8 build their model
    ([create_model] runs [load_probabilities]) and in cell 13, [slope] and
    [offset] likewise in cells 3, 7 and 8, [phases_counts] (cell 11) in
    cells 12 and 13, [amps1] and [amps2] (swap-test cell 1) in cells 1, 2
    and 6.  Later code does require a predicate of them: the repository's
    only [assert], in swap-test cell 8, tests [overlap_from_swap_test]
    against [exact_overlap], which are computed from the counts in [res]
    and from [amps1] and [amps2]. *)
Theorem notebook_variables_are_defined_before_use :
  forallb (fun nb => Repo.functions_run_by_create_model (snd nb)) Repo.notebooks = true /\
  forallb (fun nb => Repo.run_reads_complete (snd nb)) Repo.notebooks = true /\
  forallb (fun nb => Repo.defined_before_use (snd nb)) Repo.notebooks = true /\
  map (fun nb => (fst nb, Repo.escaping (snd nb))) Repo.notebooks =
    [ ("qmci", ["sp_num_qubits"; "probabilities"; "slope"; "offset"; "model";
                "qprog"; "res"; "phases_counts"]);
      ("swap_test", ["amps1"; "amps2"; "qmod"; "qprog"; "res";
                     "overlap_from_swap_test"; "exact_overlap"]);
      ("option_pricing", ["log_normal_model"; "finance_function"; "qmod";
                          "qprog"; "results"]);
      ("phase_kickback", []);
      ("mcx", ["model"; "qprog"]);
      ("qpe_example", ["qmod"; "qprog"]);
      ("amplitude_loading_example", ["qmod"]) ] /\
  map (fun x => (x, Repo.assigners QMCICells.cells x, Repo.readers QMCICells.cells x))
      (Repo.variables QMCICells.cells) =
    [ ("sp_num_qubits", [2], [2; 3; 7; 8]);
      ("probabilities", [2], [3; 7; 8; 13]);
      ("slope", [2], [3; 7; 8]);
      ("offset", [2], [3; 7; 8]);
      ("n_qpe", [8], [8]);
      ("model", [3; 7; 8], [3; 7; 8; 9]);
      ("qprog", [3; 7; 8], [3; 7; 8; 10]);
      ("res", [10], [11]);
      ("phases_counts", [11], [12; 13]) ]%nat /\
  map (fun x => (x, Repo.assigners SwapTestCells.cells x,
                 Repo.readers SwapTestCells.cells x))
      (Repo.variables SwapTestCells.cells) =
    [ ("NUM_QUBITS", [1], [1]);
      ("amps1", [1], [1; 2; 6]);
      ("amps2", [1], [1; 2; 6]);
      ("qmod", [2], [2; 4]);
      ("qprog", [2], [3; 5]);
      ("res", [5], [6]);
      ("overlap_from_swap_test", [6], [7; 8]);
      ("exact_overlap", [6], [7; 8]);
      ("RTOL", [8], [8]) ]%nat /\
  Repo.asserts = [("swap_test", SwapTestCells.tolerance_test)] /\
  Py.expr_reads SwapTestCells.tolerance_test =
    ["np"; "overlap_from_swap_test"; "exact_overlap"; "RTOL"] /\
  Repo.assigned_from SwapTestCells.cells "overlap_from_swap_test" = ["np"; "res"; "sum"; "res"] /\
  Repo.assigned_from SwapTestCells.cells "exact_overlap" = ["np"; "amps1"; "amps2"] /\
  Repo.checked_variables SwapTestCells.cells SwapTestCells.tolerance_test =
    ["overlap_from_swap_test"; "exact_overlap"; "RTOL"; "res"; "qprog"; "qmod";
     "amps1"; "NUM_QUBITS"; "amps2"] /\
  forallb (fun x => negb (Py.mem x (Repo.variables SwapTestCells.cells))
                    || Py.mem x (Repo.checked_variables SwapTestCells.cells
                                   SwapTestCells.tolerance_test))
          (flat_map (Repo.assigned_from SwapTestCells.cells)
                    (Repo.checked_variables SwapTestCells.cells
                       SwapTestCells.tolerance_test)) = true.
Proof.
  repeat (split; [reflexivity|]). reflexivity.
Qed.

(** C6, as stated, fails: the cell that builds [phases_counts] iterates over
    [res.parsed_counts] with a generator expression. *)
Lemma phases_counts_cell_is_not_straight_line :
  Repo.straight_line QMCICells.cell_11 = false.
Proof. reflexivity. Qed.

(** C6, amended: the only iteration written in the notebooks is one
    generator expression in each of the QMCI cells 11 and 13, every other
    cell being straight-line; in the Qmod file the only repetition is the
    [power] block of [main] and the only condition the [control] block of
    [zero_predicate]. *)
Theorem iteration_is_two_generators_and_qmod_blocks :
  Repo.looping_cells = [("qmci", 11%nat, 1%nat); ("qmci", 13%nat, 1%nat)] /\
  forallb (fun nb =>
             forallb (fun ic : nat * Py.cell =>
                        Repo.straight_line (snd ic)
                        || (String.eqb (fst nb) "qmci"
                            && (Nat.eqb (fst ic) 11 || Nat.eqb (fst ic) 13)))
                     (combine (seq 1 (List.length (snd nb))) (snd nb)))
          Repo.notebooks = true /\
  Qmod.functions_with Qmod.is_power WhiteboxFuzzing.file = ["main"] /\
  Qmod.functions_with Qmod.is_control WhiteboxFuzzing.file = ["zero_predicate"].
Proof.
  repeat (split; [reflexivity|]). reflexivity.
Qed.

(** ** Further facts about the cells and the Qmod file *)

Local Open Scope list_scope.

(** *** The probability vector for any register size *)

Lemma sumQ_acc_proper (l : list Q) (a b : Q) :
  (a == b)%Q -> (fold_left Qplus l a == fold_left Qplus l b)%Q.
Proof.
  revert a b. induction l as [|x l IH]; intros a b E; cbn [fold_left].
  - exact E.
  - apply IH. rewrite E. reflexivity.
Qed.

Lemma sumQ_acc (l : list Q) (a : Q) :
  (fold_left Qplus l a == a + Np.sumQ l)%Q.
Proof.
  unfold Np.sumQ. revert a.
  induction l as [|x l IH]; intros a; cbn [fold_left].
  - ring.
  - rewrite (IH (a + x)%Q), (IH (0 + x)%Q). ring.
Qed.

Lemma sumQ_cons (x : Q) (l : list Q) : (Np.sumQ (x :: l) == x + Np.sumQ l)%Q.
Proof.
  unfold Np.sumQ at 1. cbn [fold_left]. rewrite sumQ_acc. ring.
Qed.

Lemma inject_Z_of_nat_S (n : nat) :
  (inject_Z (Z.of_nat (S n)) == inject_Z (Z.of_nat n) + 1)%Q.
Proof.
  rewrite Nat2Z.inj_succ. unfold Z.succ. rewrite inject_Z_plus. reflexivity.
Qed.

(** Twice the sum of [i * c + 0] over [i = s .. s + len - 1]. *)
Lemma sumQ_arithmetic (c : Q) (len s : nat) :
  (2 * Np.sumQ (map (fun i => inject_Z (Z.of_nat i) * c + 0) (seq s len))
   == c * inject_Z (Z.of_nat len)
        * (2 * inject_Z (Z.of_nat s) + inject_Z (Z.of_nat len) - 1))%Q.
Proof.
  revert s. induction len as [|len IH]; intros s; cbn [seq map].
  - unfold Np.sumQ; cbn [fold_left]. change (inject_Z (Z.of_nat 0)) with 0%Q. ring.
  - rewrite sumQ_cons, Qmult_plus_distr_r, IH, !inject_Z_of_nat_S. ring.
Qed.

Lemma sumQ_divide (l : list Q) (d : Q) :
  (Np.sumQ (Np.divide l d) == Np.sumQ l / d)%Q.
Proof.
  unfold Np.divide. induction l as [|x l IH]; cbn [map].
  - unfold Np.sumQ; cbn [fold_left]. unfold Qdiv. ring.
  - rewrite !sumQ_cons, IH. unfold Qdiv. ring.
Qed.

Lemma pow2_nat (n : Z) :
  (1 <= n)%Z -> (2 <= Z.to_nat (2 ^ n))%nat /\ Z.of_nat (Z.to_nat (2 ^ n)) = (2 ^ n)%Z.
Proof.
  intros Hn.
  assert (H : (2 ^ 1 <= 2 ^ n)%Z) by (apply Z.pow_le_mono_r; lia).
  change (2 ^ 1)%Z with 2%Z in H. split; lia.
Qed.

Lemma linspace_sum (num : nat) :
  (2 <= num)%nat ->
  (Np.sumQ (Np.linspace 0 1 num) == inject_Z (Z.of_nat num) / 2)%Q.
Proof.
  intros Hnum. unfold Np.linspace.
  set (c := ((1 - 0) / inject_Z (Z.of_nat (num - 1)))%Q).
  assert (Hc : (c * (inject_Z (Z.of_nat num) - 1) == 1)%Q).
  { unfold c. replace (Z.of_nat (num - 1)) with (Z.of_nat num - 1)%Z by lia.
    unfold Zminus. rewrite inject_Z_plus. change (inject_Z (- (1))) with (- (1))%Q.
    field. intros E.
    assert (E' : (inject_Z (Z.of_nat num) == 1)%Q) by (rewrite <- (Qplus_0_r 1), <- E; ring).
    unfold Qeq in E'; cbn in E'. lia. }
  pose proof (sumQ_arithmetic c num 0) as H.
  change (inject_Z (Z.of_nat 0)) with 0%Q in H.
  apply (Qmult_inj_l _ _ 2); [discriminate|].
  rewrite H.
  transitivity (inject_Z (Z.of_nat num) * (c * (inject_Z (Z.of_nat num) - 1)))%Q;
    [ring|].
  rewrite Hc. field.
Qed.

Lemma probabilities_length (n : Z) :
  (1 <= n)%Z ->
  List.length (QMCISizes.probabilities_for n) = Z.to_nat (2 ^ n) /\
  Z.of_nat (Z.to_nat (2 ^ n)) = (2 ^ n)%Z.
Proof.
  intros Hn. split; [|apply pow2_nat; exact Hn].
  unfold QMCISizes.probabilities_for, Np.divide, Np.linspace.
  rewrite !length_map, length_seq. reflexivity.
Qed.

(** X1: for every [sp_num_qubits >= 1] the probability vector of the
    state-loading cell has [2 ^ sp_num_qubits] entries, entry [i] is
    [2 i / (N (N - 1))] with [N = 2 ^ sp_num_qubits], every entry is
    nonnegative and the entries sum to 1. *)
Theorem probabilities_for_is_a_distribution (n : Z) :
  (1 <= n)%Z ->
  List.length (QMCISizes.probabilities_for n) = Z.to_nat (2 ^ n) /\
  Forall2 Qeq (QMCISizes.probabilities_for n)
          (map (fun i => 2 * inject_Z (Z.of_nat i)
                         / (inject_Z (2 ^ n) * (inject_Z (2 ^ n) - 1)))%Q
               (seq 0 (Z.to_nat (2 ^ n)))) /\
  Forall (fun p => 0 <= p)%Q (QMCISizes.probabilities_for n) /\
  (Np.sumQ (QMCISizes.probabilities_for n) == 1)%Q.
Proof.
  intros Hn. destruct (pow2_nat n Hn) as [HN HNz].
  unfold QMCISizes.probabilities_for.
  set (N := Z.to_nat (2 ^ n)) in *.
  pose proof (linspace_sum N HN) as Hsum.
  assert (HNq : ~ (inject_Z (Z.of_nat N) == 0)%Q).
  { unfold Qeq; cbn. lia. }
  assert (HN1 : ~ (inject_Z (Z.of_nat N) - 1 == 0)%Q).
  { intros E.
    assert (E' : (inject_Z (Z.of_nat N) == 1)%Q) by (rewrite <- (Qplus_0_r 1), <- E; ring).
    unfold Qeq in E'; cbn in E'. lia. }
  assert (Hstep : ((1 - 0) / inject_Z (Z.of_nat (N - 1)) == 1 / (inject_Z (Z.of_nat N) - 1))%Q).
  { replace (Z.of_nat (N - 1)) with (Z.of_nat N - 1)%Z by lia.
    unfold Zminus. rewrite inject_Z_plus. change (inject_Z (- (1))) with (- (1))%Q.
    field. exact HN1. }
  assert (Hentry : forall i,
            ((inject_Z (Z.of_nat i) * ((1 - 0) / inject_Z (Z.of_nat (N - 1))) + 0)
               / Np.sumQ (Np.linspace 0 1 N)
             == 2 * inject_Z (Z.of_nat i)
                / (inject_Z (2 ^ n) * (inject_Z (2 ^ n) - 1)))%Q).
  { intros i. rewrite Hsum, Hstep, <- HNz. field. split; assumption. }
  split; [|split; [|split]].
  - unfold Np.divide, Np.linspace. rewrite !length_map, length_seq. reflexivity.
  - set (d := Np.sumQ (Np.linspace 0 1 N)) in *.
    unfold Np.divide, Np.linspace. cbv zeta. rewrite map_map.
    induction (seq 0 N) as [|i l IH]; cbn [map]; constructor.
    + apply Hentry.
    + exact IH.
  - set (d := Np.sumQ (Np.linspace 0 1 N)) in *.
    unfold Np.divide, Np.linspace. cbv zeta. rewrite map_map.
    apply Forall_forall. intros p Hp. apply in_map_iff in Hp.
    destruct Hp as (i & <- & _). rewrite Hentry.
    apply Qle_shift_div_l.
    + rewrite <- HNz.
      assert (H1 : (1 < inject_Z (Z.of_nat N))%Q) by (unfold Qlt; cbn; lia).
      apply Qmult_lt_0_compat.
      * apply Qlt_trans with (y := 1%Q); [reflexivity | exact H1].
      * unfold Qminus. rewrite <- (Qplus_opp_r 1).
        apply Qplus_lt_l. exact H1.
    + rewrite Qmult_0_l. apply Qmult_le_0_compat; [discriminate|].
      unfold Qle; cbn. lia.
  - rewrite sumQ_divide, Hsum. field. exact HNq.
Qed.

Lemma probabilities_for_is_a_distribution_witness :
  List.length (QMCISizes.probabilities_for 4) = 16%nat /\
  (Np.sumQ (QMCISizes.probabilities_for 4) == 1)%Q.
Proof.
  destruct (probabilities_for_is_a_distribution 4) as (H1 & _ & _ & H2).
  - lia.
  - split; [exact H1 | exact H2].
Defined.

(** *** Post-processing of the QMCI execution result *)

Lemma get_setitem_same (d : QMCIPost.dict) (k : Q) (v : Z) :
  QMCIPost.get (QMCIPost.setitem d k v) k = Some v.
Proof.
  induction d as [|[k' v'] d IH]; cbn [QMCIPost.setitem QMCIPost.get].
  - rewrite (proj2 (Qeq_bool_iff k k)) by reflexivity. reflexivity.
  - destruct (Qeq_bool k' k) eqn:E; cbn [QMCIPost.get]; rewrite E;
      [reflexivity | exact IH].
Qed.

Lemma Qeq_bool_trans_l (a b c : Q) :
  Qeq_bool a b = true -> Qeq_bool a c = Qeq_bool b c.
Proof.
  intros Hab. apply Qeq_bool_iff in Hab.
  destruct (Qeq_bool b c) eqn:E.
  - apply Qeq_bool_iff. apply Qeq_bool_iff in E. rewrite Hab. exact E.
  - destruct (Qeq_bool a c) eqn:E'; [|reflexivity].
    apply Qeq_bool_iff in E'. rewrite Hab in E'.
    apply Qeq_bool_iff in E'. congruence.
Qed.

Lemma get_setitem_other (d : QMCIPost.dict) (k p : Q) (v : Z) :
  ~ (k == p)%Q ->
  QMCIPost.get (QMCIPost.setitem d k v) p = QMCIPost.get d p.
Proof.
  intros Hkp.
  assert (Ekp : Qeq_bool k p = false).
  { destruct (Qeq_bool k p) eqn:E; [|reflexivity].
    apply Qeq_bool_iff in E. contradiction. }
  induction d as [|[k' v'] d IH]; cbn [QMCIPost.setitem QMCIPost.get].
  - rewrite Ekp. reflexivity.
  - destruct (Qeq_bool k' k) eqn:E; cbn [QMCIPost.get].
    + rewrite (Qeq_bool_trans_l _ _ p E), Ekp. reflexivity.
    + rewrite IH. reflexivity.
Qed.

Lemma phases_counts_snoc (l : list QMCIPost.sampled_state) (s : QMCIPost.sampled_state) :
  QMCIPost.phases_counts (l ++ [s]) =
  QMCIPost.setitem (QMCIPost.phases_counts l) (QMCIPost.phase s) (QMCIPost.shots s).
Proof.
  unfold QMCIPost.phases_counts. rewrite fold_left_app. reflexivity.
Qed.

(** X2: [phases_counts] maps a phase to the shots of the last sample that
    carries it: it is empty on no samples, the last sample's phase maps to
    the last sample's shots, and every other phase keeps its entry. *)
Theorem phases_counts_keeps_the_last_shots
        (l : list QMCIPost.sampled_state) (s : QMCIPost.sampled_state) (p : Q) :
  QMCIPost.get (QMCIPost.phases_counts []) p = None /\
  QMCIPost.get (QMCIPost.phases_counts (l ++ [s])) (QMCIPost.phase s)
    = Some (QMCIPost.shots s) /\
  (~ (QMCIPost.phase s == p)%Q ->
   QMCIPost.get (QMCIPost.phases_counts (l ++ [s])) p
     = QMCIPost.get (QMCIPost.phases_counts l) p).
Proof.
  split; [reflexivity|].
  rewrite phases_counts_snoc.
  split; [apply get_setitem_same|].
  intros Hp. apply get_setitem_other. exact Hp.
Qed.

Lemma phases_counts_keeps_the_last_shots_witness :
  QMCIPost.get
    (QMCIPost.phases_counts
       ([ {| QMCIPost.phase := 5 # 8; QMCIPost.shots := 400 |};
          {| QMCIPost.phase := 3 # 8; QMCIPost.shots := 390 |} ]
        ++ [ {| QMCIPost.phase := 10 # 16; QMCIPost.shots := 7 |} ]))
    (3 # 8)
  = Some 390%Z.
Proof.
  destruct (phases_counts_keeps_the_last_shots
              [ {| QMCIPost.phase := 5 # 8; QMCIPost.shots := 400 |};
                {| QMCIPost.phase := 3 # 8; QMCIPost.shots := 390 |} ]
              {| QMCIPost.phase := 10 # 16; QMCIPost.shots := 7 |}
              (3 # 8)) as (_ & _ & H).
  rewrite H; [reflexivity | cbn; unfold Qeq; cbn; lia].
Defined.

Lemma max_from_spec (f : Q -> Z) (rest : list Q) (best : Q) :
  In (QMCIPost.max_from f best rest) (best :: rest) /\
  (forall k, In k (best :: rest) -> (f k <= f (QMCIPost.max_from f best rest))%Z).
Proof.
  revert best. induction rest as [|k rest IH]; intros best; cbn [QMCIPost.max_from].
  - split; [left; reflexivity|]. intros k [<-|[]]. lia.
  - destruct (Z.ltb_spec (f best) (f k)) as [Hlt|Hge].
    + destruct (IH k) as [Hin Hmax]. split.
      * right. exact Hin.
      * intros k' [<-|Hk'].
        -- specialize (Hmax k (or_introl eq_refl)). lia.
        -- apply Hmax. exact Hk'.
    + destruct (IH best) as [Hin Hmax]. split.
      * destruct Hin as [<-|Hin]; [left; reflexivity | right; right; exact Hin].
      * intros k' [<-|[<-|Hk']].
        -- apply Hmax. left; reflexivity.
        -- specialize (Hmax best (or_introl eq_refl)). lia.
        -- apply Hmax. right. exact Hk'.
Qed.

(** X3: [max(phases_counts, key=phases_counts.get)] raises on an empty
    dictionary and otherwise returns one of its keys, whose count no other
    key exceeds. *)
Theorem max_phase_is_a_most_frequent_phase (d : QMCIPost.dict) :
  (d = [] -> QMCIPost.max_phase d = None) /\
  (d <> [] ->
   exists k, QMCIPost.max_phase d = Some k /\
             In k (QMCIPost.keys d) /\
             forall k', In k' (QMCIPost.keys d) ->
                        (QMCIPost.count d k' <= QMCIPost.count d k)%Z).
Proof.
  split.
  - intros ->. reflexivity.
  - intros Hd. unfold QMCIPost.max_phase.
    destruct d as [|[k0 v0] d]; [contradiction|].
    cbn [QMCIPost.keys map fst].
    destruct (max_from_spec (QMCIPost.count ((k0, v0) :: d)) (map fst d) k0)
      as [Hin Hmax].
    eexists. split; [reflexivity|]. split; [exact Hin | exact Hmax].
Qed.

Lemma max_phase_is_a_most_frequent_phase_witness :
  QMCIPost.max_phase [] = None /\
  exists k, QMCIPost.max_phase [(5 # 8, 400%Z); (3 # 8, 390%Z); (1 # 2, 30%Z)] = Some k /\
            (QMCIPost.count [(5 # 8, 400%Z); (3 # 8, 390%Z); (1 # 2, 30%Z)] (3 # 8)
             <= QMCIPost.count [(5 # 8, 400%Z); (3 # 8, 390%Z); (1 # 2, 30%Z)] k)%Z.
Proof.
  split.
  - exact (proj1 (max_phase_is_a_most_frequent_phase []) eq_refl).
  - destruct (proj2 (max_phase_is_a_most_frequent_phase
                       [(5 # 8, 400%Z); (3 # 8, 390%Z); (1 # 2, 30%Z)]))
      as (k & Hk & _ & Hmax).
    + discriminate.
    + exists k. split; [exact Hk|]. apply Hmax. cbn. right; left; reflexivity.
Defined.

Section MeasuredAmplitude.

Local Open Scope R_scope.

Lemma sin_sqr_half_angle (x : R) : sin x ^ 2 = (1 - cos (2 * x)) / 2.
Proof. rewrite cos_2a_sin. field. Qed.

Lemma measured_amplitude_mirror (p : Q) :
  QMCIPost.measured_amplitude (1 - p) = QMCIPost.measured_amplitude p.
Proof.
  unfold QMCIPost.measured_amplitude.
  unfold Qminus. rewrite Q2R_plus, Q2R_opp.
  replace (Q2R 1) with 1 by (unfold Q2R; cbn; lra).
  replace (PI * (1 + - Q2R p)) with (PI - PI * Q2R p) by ring.
  rewrite sin_PI_x. reflexivity.
Qed.


Lemma Rabs_le_Rabs_of_bounds (x y : R) :
  - y <= x <= y \/ y <= x <= - y -> Rabs x <= Rabs y.
Proof.
  intros H. unfold Rabs.
  destruct (Rcase_abs x); destruct (Rcase_abs y); lra.
Qed.

Lemma sqrt2_bounds : 1.41 < sqrt 2 < 1.42.
Proof.
  split.
  - replace 1.41 with (sqrt (1.41 * 1.41)) by (apply sqrt_square; lra).
    apply sqrt_lt_1; lra.
  - replace 1.42 with (sqrt (1.42 * 1.42)) by (apply sqrt_square; lra).
    apply sqrt_lt_1; lra.
Qed.

Lemma measured_amplitude_grid :
  QMCIPost.measured_amplitude (0 # 8) = 0 /\
  QMCIPost.measured_amplitude (1 # 8) = (2 - sqrt 2) / 4 /\
  QMCIPost.measured_amplitude (2 # 8) = 1 / 2 /\
  QMCIPost.measured_amplitude (3 # 8) = (2 + sqrt 2) / 4 /\
  QMCIPost.measured_amplitude (4 # 8) = 1.
Proof.
  pose proof sqrt2_neq_0 as Hs.
  assert (Hs2 : sqrt 2 * sqrt 2 = 2) by (apply sqrt_sqrt; lra).
  unfold QMCIPost.measured_amplitude.
  repeat split; rewrite sin_sqr_half_angle.
  - replace (2 * (PI * Q2R (0 # 8))) with 0 by (unfold Q2R; cbn; lra).
    rewrite cos_0. lra.
  - replace (2 * (PI * Q2R (1 # 8))) with (PI / 4) by (unfold Q2R; cbn; lra).
    rewrite cos_PI4. apply Rmult_eq_reg_r with (r := sqrt 2); [|exact Hs].
    field_simplify; [|exact Hs]. rewrite <- Rsqr_pow2; unfold Rsqr.
    rewrite Hs2. lra.
  - replace (2 * (PI * Q2R (2 # 8))) with (PI / 2) by (unfold Q2R; cbn; lra).
    rewrite cos_PI2. lra.
  - replace (2 * (PI * Q2R (3 # 8))) with (3 * (PI / 4)) by (unfold Q2R; cbn; lra).
    rewrite cos_3PI4. apply Rmult_eq_reg_r with (r := sqrt 2); [|exact Hs].
    field_simplify; [|exact Hs]. rewrite <- Rsqr_pow2; unfold Rsqr.
    rewrite Hs2. lra.
  - replace (2 * (PI * Q2R (4 # 8))) with PI by (unfold Q2R; cbn; lra).
    rewrite cos_PI. lra.
Qed.

Lemma exact_amplitude_bounds : 0.8335 < QMCI.exact_amplitude < 0.8345.
Proof.
  replace QMCI.exact_amplitude with QMCI.target_expectation;
    [exact target_expectation_bounds|].
  unfold QMCI.exact_amplitude, QMCI.target_expectation, Np.sumR.
  change (Z.to_nat (2 ^ 3)) with 8%nat.
  cbn [seq map fold_left].
  rewrite !exact_amplitude_term_eq by lia.
  lra.
Qed.

Lemma measured_amplitude_Qeq (p q : Q) :
  (p == q)%Q -> QMCIPost.measured_amplitude p = QMCIPost.measured_amplitude q.
Proof.
  intros E. unfold QMCIPost.measured_amplitude. rewrite (Qeq_eqR _ _ E). reflexivity.
Qed.

Ltac on_grid k :=
  match goal with
  | |- _ <= Rabs (QMCIPost.measured_amplitude ?p - _) =>
      rewrite (measured_amplitude_Qeq p (k # 8)) by reflexivity
  end.

(** X5: among the phases the 3-bit [phase] register can hold, [5/8] (and
    its mirror [3/8]) gives the measured amplitude nearest to the exact
    amplitude; that amplitude is [(2 + sqrt 2) / 4] and is within 0.0215 of
    the exact one. *)
Theorem three_bit_phase_estimate_is_the_nearest_grid_point :
  Forall (fun p => Rabs (QMCIPost.measured_amplitude (5 # 8) - QMCI.exact_amplitude)
                   <= Rabs (QMCIPost.measured_amplitude p - QMCI.exact_amplitude))
         QMCIPost.phase_grid /\
  QMCIPost.measured_amplitude (5 # 8) = (2 + sqrt 2) / 4 /\
  QMCIPost.measured_amplitude (3 # 8) = QMCIPost.measured_amplitude (5 # 8) /\
  Rabs (QMCIPost.measured_amplitude (5 # 8) - QMCI.exact_amplitude) < 0.0215.
Proof.
  destruct measured_amplitude_grid as (G0 & G1 & G2 & G3 & G4).
  assert (M5 : QMCIPost.measured_amplitude (5 # 8) = QMCIPost.measured_amplitude (3 # 8)).
  { rewrite <- (measured_amplitude_mirror (3 # 8)).
    apply measured_amplitude_Qeq. reflexivity. }
  assert (M6 : QMCIPost.measured_amplitude (6 # 8) = QMCIPost.measured_amplitude (2 # 8)).
  { rewrite <- (measured_amplitude_mirror (2 # 8)).
    apply measured_amplitude_Qeq. reflexivity. }
  assert (M7 : QMCIPost.measured_amplitude (7 # 8) = QMCIPost.measured_amplitude (1 # 8)).
  { rewrite <- (measured_amplitude_mirror (1 # 8)).
    apply measured_amplitude_Qeq. reflexivity. }
  pose proof exact_amplitude_bounds as Ha.
  pose proof sqrt2_bounds as Hs.
  split.
  { unfold QMCIPost.phase_grid. change (Z.to_nat (2 ^ QMCI.n_qpe)) with 8%nat.
    cbn [seq map].
    repeat apply Forall_cons; [..|apply Forall_nil].
    - on_grid 0%Z. rewrite M5, G0, G3.
      apply Rabs_le_Rabs_of_bounds; lra.
    - on_grid 1%Z. rewrite M5, G1, G3.
      apply Rabs_le_Rabs_of_bounds; lra.
    - on_grid 2%Z. rewrite M5, G2, G3.
      apply Rabs_le_Rabs_of_bounds; lra.
    - on_grid 3%Z. rewrite M5. lra.
    - on_grid 4%Z. rewrite M5, G4, G3.
      apply Rabs_le_Rabs_of_bounds; lra.
    - on_grid 5%Z. lra.
    - on_grid 6%Z. rewrite M5, M6, G2, G3.
      apply Rabs_le_Rabs_of_bounds; lra.
    - on_grid 7%Z. rewrite M5, M7, G1, G3.
      apply Rabs_le_Rabs_of_bounds; lra. }
  split; [rewrite M5; exact G3|].
  split; [symmetry; exact M5|].
  rewrite M5, G3. apply Rabs_def1; lra.
Qed.

End MeasuredAmplitude.

(** *** Edge cases and bounds of the swap-test post-processing *)

Lemma sumZ_acc (l : list Z) (a : Z) :
  fold_left Z.add l a = (a + SwapTest.sumZ l)%Z.
Proof.
  unfold SwapTest.sumZ. revert a.
  induction l as [|x l IH]; intros a; cbn [fold_left].
  - lia.
  - rewrite (IH (a + x)%Z), (IH (0 + x)%Z). lia.
Qed.

Lemma sumZ_cons (x : Z) (l : list Z) : SwapTest.sumZ (x :: l) = (x + SwapTest.sumZ l)%Z.
Proof. unfold SwapTest.sumZ at 1. cbn [fold_left]. rewrite sumZ_acc. lia. Qed.

Lemma sumZ_nonneg (l : list Z) :
  Forall (fun v => 0 <= v)%Z l -> (0 <= SwapTest.sumZ l)%Z.
Proof.
  induction 1 as [|x l Hx _ IH]; [reflexivity|]. rewrite sumZ_cons. lia.
Qed.

Lemma sumZ_bounds_member (l : list Z) (v : Z) :
  Forall (fun v => 0 <= v)%Z l -> In v l -> (v <= SwapTest.sumZ l)%Z.
Proof.
  induction 1 as [|x l Hx Hl IH]; intros Hin; [contradiction|].
  rewrite sumZ_cons. pose proof (sumZ_nonneg l Hl).
  destruct Hin as [->|Hin]; [lia | specialize (IH Hin); lia].
Qed.

Lemma getitem_in_values (counts : SwapTest.counts_t) (k : string) (v : Z) :
  SwapTest.getitem counts k = Some v -> In v (SwapTest.values counts).
Proof.
  induction counts as [|[k' v'] counts IH]; cbn [SwapTest.getitem]; [discriminate|].
  destruct (String.eqb k' k); intros H.
  - injection H as ->. left; reflexivity.
  - right. apply IH. exact H.
Qed.

(** X6: in binary64 arithmetic, with nonnegative counts of at most [2^53]
    shots, [overlap_from_swap_test] raises [KeyError] when ["0"] was never
    measured and [ZeroDivisionError] when there are no shots, is [nan] when
    ["0"] has fewer than half the shots, and otherwise is a number between 0
    and 1. *)
Theorem overlap_from_swap_test_cases (rnd : R -> R) (counts : SwapTest.counts_t) :
  SwapTest.rounds_like_float64 rnd ->
  Forall (fun v => 0 <= v)%Z (SwapTest.values counts) ->
  (SwapTest.sumZ (SwapTest.values counts) <= 2 ^ 53)%Z ->
  (SwapTest.getitem counts "0" = None ->
   SwapTest.overlap_from_swap_test rnd counts = inl SwapTest.KeyError) /\
  (forall c0, SwapTest.getitem counts "0" = Some c0 ->
     (SwapTest.sumZ (SwapTest.values counts) = 0%Z ->
      SwapTest.overlap_from_swap_test rnd counts = inl SwapTest.ZeroDivisionError) /\
     ((2 * c0 < SwapTest.sumZ (SwapTest.values counts))%Z ->
      SwapTest.overlap_from_swap_test rnd counts = inr SwapTest.NaN) /\
     ((0 < SwapTest.sumZ (SwapTest.values counts) <= 2 * c0)%Z ->
      exists r, SwapTest.overlap_from_swap_test rnd counts = inr (SwapTest.Finite r) /\
                (0 <= r <= 1)%R)).
Proof.
  intros Hrnd Hpos Hshots. split.
  { intros Hget. unfold SwapTest.overlap_from_swap_test. rewrite Hget. reflexivity. }
  intros c0 Hget.
  pose proof (sumZ_bounds_member _ _ Hpos (getitem_in_values _ _ _ Hget)) as Hc0.
  assert (Hc0' : (0 <= c0)%Z).
  { apply (proj1 (Forall_forall _ _) Hpos). apply (getitem_in_values _ _ _ Hget). }
  split; [|split].
  - intros E. unfold SwapTest.overlap_from_swap_test. rewrite Hget, E. reflexivity.
  - intros Hlt.
    rewrite (overlap_from_swap_test_eq rnd counts c0 Hget) by lia.
    rewrite np_sqrt_nan by (apply radicand_negative; [exact Hrnd | lia | exact Hshots | exact Hlt]).
    reflexivity.
  - intros [Ht Hge].
    rewrite (overlap_from_swap_test_eq rnd counts c0 Hget) by lia.
    pose proof (radicand_nonneg rnd Hrnd c0 _ Ht Hge) as R0.
    pose proof (radicand_at_most_1 rnd Hrnd c0 _ Ht Hc0) as R1.
    rewrite np_sqrt_finite by exact R0.
    eexists. split; [reflexivity|].
    split.
    + rewrite <- (SwapTest.rnd_0 rnd Hrnd).
      apply (SwapTest.rnd_monotone rnd Hrnd). apply sqrt_pos.
    + rewrite <- (SwapTest.rnd_1 rnd Hrnd) at 2.
      apply (SwapTest.rnd_monotone rnd Hrnd).
      apply Rle_trans with (r2 := sqrt 1); [apply sqrt_le_1_alt; exact R1|].
      rewrite sqrt_1. lra.
Qed.

Lemma overlap_from_swap_test_cases_witness :
  SwapTest.overlap_from_swap_test SwapTest.exact [("1"%string, 10%Z)]
    = inl SwapTest.KeyError /\
  SwapTest.overlap_from_swap_test SwapTest.exact [("0"%string, 0%Z)]
    = inl SwapTest.ZeroDivisionError /\
  SwapTest.overlap_from_swap_test SwapTest.exact [("0"%string, 40%Z); ("1"%string, 60%Z)]
    = inr SwapTest.NaN /\
  exists r, SwapTest.overlap_from_swap_test SwapTest.exact Inputs.counts_75_25
            = inr (SwapTest.Finite r) /\
            (0 <= r <= 1)%R.
Proof.
  assert (Hr : SwapTest.rounds_like_float64 SwapTest.exact).
  { constructor; unfold SwapTest.exact; intros; lra. }
  split; [|split; [|split]].
  - apply (proj1 (overlap_from_swap_test_cases SwapTest.exact [("1"%string, 10%Z)] Hr
                    ltac:(cbn; repeat (apply Forall_cons; [lia|]); apply Forall_nil)
                    ltac:(vm_compute; discriminate))).
    reflexivity.
  - apply (proj1 (proj2 (overlap_from_swap_test_cases SwapTest.exact [("0"%string, 0%Z)] Hr
                           ltac:(cbn; repeat (apply Forall_cons; [lia|]); apply Forall_nil)
                           ltac:(vm_compute; discriminate)) 0%Z eq_refl)).
    reflexivity.
  - apply (proj1 (proj2 (proj2 (overlap_from_swap_test_cases SwapTest.exact
                                  [("0"%string, 40%Z); ("1"%string, 60%Z)] Hr
                                  ltac:(cbn; repeat (apply Forall_cons; [lia|]); apply Forall_nil)
                                  ltac:(vm_compute; discriminate)) 40%Z eq_refl))).
    reflexivity.
  - apply (proj2 (proj2 (proj2 (overlap_from_swap_test_cases SwapTest.exact
                                  Inputs.counts_75_25 Hr
                                  ltac:(cbn; repeat (apply Forall_cons; [lia|]); apply Forall_nil)
                                  ltac:(vm_compute; discriminate)) 75%Z eq_refl))).
    vm_compute. split; [reflexivity | discriminate].
Defined.

Section Overlap.

Local Open Scope R_scope.

Lemma dot_bounded_by_squares (a b : list R) :
  - (SwapTestRun.sum_squares a + SwapTestRun.sum_squares b) <= 2 * SwapTest.dot a b
                                    <= SwapTestRun.sum_squares a + SwapTestRun.sum_squares b.
Proof.
  unfold SwapTest.dot, SwapTestRun.sum_squares.
  revert b. induction a as [|x a IH]; intros b.
  - cbn [combine map]. pose proof (sumR_squares_nonneg b).
    change (Np.sumR []) with 0. lra.
  - destruct b as [|y b].
    + pose proof (sumR_squares_nonneg (x :: a)).
      cbn [combine map] in *. change (Np.sumR []) with 0. lra.
    + cbn [combine map fst snd]. rewrite !sumR_cons.
      specialize (IH b).
      pose proof (Rle_0_sqr (x - y)) as H1. pose proof (Rle_0_sqr (x + y)) as H2.
      unfold Rsqr in *. lra.
Qed.

Lemma unit_norm_sum_squares (v : list R) :
  SwapTest.norm v = 1 -> SwapTestRun.sum_squares v = 1.
Proof.
  unfold SwapTest.norm, SwapTestRun.sum_squares. intros H.
  rewrite <- (sqrt_sqrt (Np.sumR (map (fun x => x * x) v)))
    by apply sumR_squares_nonneg.
  rewrite H. lra.
Qed.

(** X8: the classically computed overlap of the two normalized vectors
    lies between 0 and 1 (Cauchy-Schwarz). *)
Theorem exact_overlap_is_between_0_and_1 (rng : nat -> R) :
  SwapTest.norm (SwapTest.raw1 rng) <> 0 ->
  SwapTest.norm (SwapTest.raw2 rng) <> 0 ->
  0 <= SwapTest.exact_overlap rng <= 1.
Proof.
  intros H1 H2. unfold SwapTest.exact_overlap.
  split; [apply Rabs_pos|].
  assert (S1 : SwapTestRun.sum_squares (SwapTest.amps1 rng) = 1).
  { apply unit_norm_sum_squares. unfold SwapTest.amps1.
    apply norm_normalized. exact H1. }
  assert (S2 : SwapTestRun.sum_squares (SwapTest.amps2 rng) = 1).
  { apply unit_norm_sum_squares. unfold SwapTest.amps2.
    apply norm_normalized. exact H2. }
  pose proof (dot_bounded_by_squares (SwapTest.amps1 rng) (SwapTest.amps2 rng)) as B.
  rewrite S1, S2 in B.
  apply Rabs_le. lra.
Qed.

Lemma all_zero_stream_norm (k : nat) :
  sqrt (Np.sumR (map (fun x => x * x)
                     (map (fun x => 1 - 2 * x) (map (fun _ : nat => 0) (seq k 8))))) <> 0.
Proof.
  apply Rgt_not_eq. apply sqrt_lt_R0.
  unfold Np.sumR. cbn [seq map fold_left]. lra.
Qed.

Lemma exact_overlap_is_between_0_and_1_witness :
  0 <= SwapTest.exact_overlap (fun _ => 0) <= 1.
Proof.
  apply (exact_overlap_is_between_0_and_1 (fun _ => 0)
           (all_zero_stream_norm 0) (all_zero_stream_norm 8)).
Defined.

Lemma square_le_sum_squares (v : list R) (x : R) :
  In x v -> x * x <= SwapTestRun.sum_squares v.
Proof.
  unfold SwapTestRun.sum_squares.
  induction v as [|y v IH]; intros Hin; [contradiction|].
  cbn [map]. rewrite sumR_cons.
  pose proof (sumR_squares_nonneg v) as Hv.
  pose proof (Rle_0_sqr y) as Hy. unfold Rsqr in Hy.
  destruct Hin as [->|Hin]; [lra | specialize (IH Hin); lra].
Qed.

Lemma normalized_entries (v : list R) :
  SwapTest.norm v <> 0 ->
  Forall (fun x => -1 <= x <= 1) (map (fun x => x / SwapTest.norm v) v).
Proof.
  intros Hn. apply Forall_forall. intros y Hy.
  pose proof (square_le_sum_squares _ _ Hy) as Hsq.
  assert (S1 : SwapTestRun.sum_squares (map (fun x => x / SwapTest.norm v) v) = 1)
    by (apply unit_norm_sum_squares, norm_normalized; exact Hn).
  rewrite S1 in Hsq.
  assert (H1 : Rsqr y <= Rsqr 1) by (unfold Rsqr; lra).
  apply Rsqr_le_abs_0 in H1. rewrite (Rabs_right 1) in H1 by lra.
  unfold Rabs in H1. destruct (Rcase_abs y); lra.
Qed.

Lemma raw_entries (rng : nat -> R) (drawn n : nat) :
  (forall i, 0 <= rng i < 1) ->
  Forall (fun x => -1 < x <= 1) (map (fun x => 1 - 2 * x) (SwapTest.rand rng drawn n)).
Proof.
  intros Hrng. unfold SwapTest.rand. rewrite map_map.
  apply Forall_forall. intros y Hy. apply in_map_iff in Hy.
  destruct Hy as (i & <- & _). specialize (Hrng i). lra.
Qed.

(** X9: with samples in [0, 1) the raw vectors have their entries in
    (-1, 1], and every entry of a normalized vector lies in [-1, 1]. *)
Theorem amplitude_vectors_stay_in_range (rng : nat -> R) :
  (forall i, 0 <= rng i < 1) ->
  Forall (fun x => -1 < x <= 1) (SwapTest.raw1 rng) /\
  Forall (fun x => -1 < x <= 1) (SwapTest.raw2 rng) /\
  (SwapTest.norm (SwapTest.raw1 rng) <> 0 ->
   Forall (fun x => -1 <= x <= 1) (SwapTest.amps1 rng)) /\
  (SwapTest.norm (SwapTest.raw2 rng) <> 0 ->
   Forall (fun x => -1 <= x <= 1) (SwapTest.amps2 rng)).
Proof.
  intros Hrng.
  split; [apply raw_entries; exact Hrng|].
  split; [apply raw_entries; exact Hrng|].
  split; intros Hn; apply normalized_entries; exact Hn.
Qed.

Lemma amplitude_vectors_stay_in_range_witness :
  Forall (fun x => -1 < x <= 1) (SwapTest.raw1 (fun _ => 0)) /\
  Forall (fun x => -1 <= x <= 1) (SwapTest.amps1 (fun _ => 0)).
Proof.
  destruct (amplitude_vectors_stay_in_range (fun _ => 0)) as (H1 & _ & H3 & _).
  - intros i. lra.
  - split; [exact H1 | exact (H3 (all_zero_stream_norm 0))].
Defined.

(** X10: in binary64 arithmetic, run in sequence, cells 6 and 8 end in an
    [AssertionError] whenever ["0"] has fewer than half of at most [2^53]
    shots, whatever the exact overlap is. *)
Theorem verify_fails_below_half
        (rnd : R -> R) (counts : SwapTest.counts_t) (c0 : Z) (exact_overlap : R) :
  SwapTest.rounds_like_float64 rnd ->
  SwapTest.getitem counts "0" = Some c0 ->
  (0 < SwapTest.sumZ (SwapTest.values counts) <= 2 ^ 53)%Z ->
  (2 * c0 < SwapTest.sumZ (SwapTest.values counts))%Z ->
  SwapTest.overlap_from_swap_test rnd counts = inr SwapTest.NaN /\
  exists message,
    SwapTestRun.verify rnd counts exact_overlap
      = SwapTestRun.Checked (SwapTest.AssertionError message).
Proof.
  intros Hrnd Hget [Ht Hb] Hlt.
  assert (Hov : SwapTest.overlap_from_swap_test rnd counts = inr SwapTest.NaN).
  { rewrite (overlap_from_swap_test_eq rnd counts c0 Hget) by lia.
    rewrite np_sqrt_nan by (apply radicand_negative; assumption). reflexivity. }
  split; [exact Hov|].
  unfold SwapTestRun.verify. rewrite Hov. eexists. reflexivity.
Qed.

Lemma verify_fails_below_half_witness :
  exists message,
    SwapTestRun.verify SwapTest.exact [("0"%string, 40%Z); ("1"%string, 60%Z)] (1 / 2)
      = SwapTestRun.Checked (SwapTest.AssertionError message).
Proof.
  assert (Hr : SwapTest.rounds_like_float64 SwapTest.exact).
  { constructor; unfold SwapTest.exact; intros; lra. }
  apply (verify_fails_below_half SwapTest.exact
           [("0"%string, 40%Z); ("1"%string, 60%Z)] 40%Z (1 / 2) Hr eq_refl).
  - vm_compute. split; [reflexivity | discriminate].
  - reflexivity.
Defined.

End Overlap.

(** *** The oracles on one target qubit *)

Section Oracles.

Local Open Scope R_scope.

Lemma sqrt2_sqr : sqrt 2 * sqrt 2 = 2.
Proof. apply sqrt_sqrt. lra. Qed.

Lemma amp_eq (a b c d : R) : a = c -> b = d -> (a, b) = (c, d).
Proof. intros -> ->. reflexivity. Qed.

Lemma halve_sum (u v : R) : (u / sqrt 2 + v / sqrt 2) / sqrt 2 = (u + v) / 2.
Proof.
  transitivity ((u + v) / (sqrt 2 * sqrt 2)); [field; exact sqrt2_neq_0|].
  rewrite sqrt2_sqr. reflexivity.
Qed.

Lemma halve_difference (u v : R) : (u / sqrt 2 - v / sqrt 2) / sqrt 2 = (u - v) / 2.
Proof.
  transitivity ((u - v) / (sqrt 2 * sqrt 2)); [field; exact sqrt2_neq_0|].
  rewrite sqrt2_sqr. reflexivity.
Qed.

(** Flipped inside [|->], the target picks up a sign and nothing else. *)
Lemma kickback_flip (a : Sem.amp) :
  Sem.X_gate (Sem.H_gate (Sem.X_gate (Sem.H_gate (Sem.X_gate a))))
  = (- fst a, snd a).
Proof.
  destruct a as [a0 a1]. unfold Sem.X_gate, Sem.H_gate. cbn [fst snd].
  rewrite halve_sum, halve_difference. apply amp_eq; lra.
Qed.

Lemma kickback_idle (a : Sem.amp) :
  Sem.X_gate (Sem.H_gate (Sem.H_gate (Sem.X_gate a))) = a.
Proof.
  destruct a as [a0 a1]. unfold Sem.X_gate, Sem.H_gate. cbn [fst snd].
  rewrite halve_sum, halve_difference. apply amp_eq; lra.
Qed.

Lemma not_in_existsb (w : nat) (x : Sdk.qvar) :
  ~ In w x -> existsb (Nat.eqb w) x = false.
Proof.
  intros Hw. destruct (existsb (Nat.eqb w) x) eqn:E; [|reflexivity].
  apply existsb_exists in E. destruct E as (v & Hv & Ev).
  apply Nat.eqb_eq in Ev. subst v. contradiction.
Qed.

(** The gate sequence [X; H; control (x == 0) X; H; X] on the target. *)
Lemma kickback_sequence (x : Sdk.qvar) (w : nat) (s : Sem.state) :
  Sem.target s = w -> ~ In w x ->
  Sem.exec_list
    [Sdk.X [w]; Sdk.H [w]; Sdk.control_eq x 0 [Sdk.X [w]]; Sdk.H [w]; Sdk.X [w]] s
  = Some (Sem.set_amplitude s
            (if (Sem.value (Sem.bits s) x =? 0)%Z
             then (- fst (Sem.amplitude s), snd (Sem.amplitude s))
             else Sem.amplitude s)).
Proof.
  intros Ht Hw. destruct s as [t a b]. cbn [Sem.target] in Ht. subst t.
  cbn [Sem.exec_list Sem.exec Sem.target Sem.amplitude Sem.bits Sem.set_amplitude].
  rewrite !Nat.eqb_refl.
  cbn [Sem.target Sem.amplitude Sem.bits Sem.set_amplitude].
  rewrite (not_in_existsb w x Hw).
  destruct (Sem.value b x =? 0)%Z;
    cbn [Sem.target Sem.amplitude Sem.bits Sem.set_amplitude];
    rewrite ?Nat.eqb_refl;
    cbn [Sem.target Sem.amplitude Sem.bits Sem.set_amplitude];
    unfold Sem.set_amplitude; cbn [Sem.target Sem.amplitude Sem.bits];
    do 2 f_equal.
  - apply kickback_flip.
  - apply kickback_idle.
Qed.

(** X11: [zero_oracle] multiplies the [|0>] amplitude of [ind] by -1 when
    the register [x] holds 0 and does nothing otherwise: only the all-zero
    state changes sign. *)
Theorem zero_oracle_negates_the_all_zero_state
        (x : Sdk.qvar) (w : nat) (s : Sem.state) :
  Sem.target s = w -> ~ In w x ->
  Sem.run (QMCI.zero_oracle x [w]) s
  = Some (Sem.set_amplitude s
            (if (Sem.value (Sem.bits s) x =? 0)%Z
             then (- fst (Sem.amplitude s), snd (Sem.amplitude s))
             else Sem.amplitude s)).
Proof.
  intros Ht Hw. rewrite <- (kickback_sequence x w s Ht Hw). reflexivity.
Qed.

Lemma zero_oracle_negates_the_all_zero_state_witness :
  Sem.run (QMCI.zero_oracle [1; 2; 3]%nat [0%nat])
          {| Sem.target := 0; Sem.amplitude := (3 / 5, 4 / 5); Sem.bits := fun _ => false |}
  = Some {| Sem.target := 0; Sem.amplitude := (- (3 / 5), 4 / 5);
            Sem.bits := fun _ => false |}.
Proof.
  rewrite (zero_oracle_negates_the_all_zero_state [1; 2; 3]%nat 0%nat).
  - reflexivity.
  - reflexivity.
  - cbn. intros [H|[H|[H|[]]]]; discriminate H.
Defined.

(** X12: [oracle_phase_kickback] on a basis state [x] gives the sign
    [(-1)^(x == 0)] and leaves the freshly allocated target in [|0>]. *)
Theorem oracle_phase_kickback_marks_zero_with_a_sign
        (x : Sdk.qvar) (w : nat) (bits : nat -> bool) :
  ~ In w x ->
  Sem.run (PhaseKickback.oracle_phase_kickback [w] x) (PhaseKickback.allocated w bits)
  = Some {| Sem.target := w;
            Sem.amplitude := ((if (Sem.value bits x =? 0)%Z then -1 else 1), 0);
            Sem.bits := bits |}.
Proof.
  intros Hw.
  change (Sem.run (PhaseKickback.oracle_phase_kickback [w] x)
                  (PhaseKickback.allocated w bits))
    with (Sem.exec_list
            [Sdk.X [w]; Sdk.H [w]; Sdk.control_eq x 0 [Sdk.X [w]]; Sdk.H [w]; Sdk.X [w]]
            (PhaseKickback.allocated w bits)).
  rewrite (kickback_sequence x w (PhaseKickback.allocated w bits) eq_refl Hw).
  unfold Sem.set_amplitude, PhaseKickback.allocated.
  cbn [Sem.target Sem.amplitude Sem.bits fst snd].
  destruct (Sem.value bits x =? 0)%Z; do 2 f_equal; apply amp_eq; lra.
Qed.

Lemma oracle_phase_kickback_marks_zero_with_a_sign_witness :
  Sem.run (PhaseKickback.oracle_phase_kickback [4%nat] [0; 1; 2; 3]%nat)
          (PhaseKickback.allocated 4 (fun _ => false))
  = Some {| Sem.target := 4; Sem.amplitude := (-1, 0); Sem.bits := fun _ => false |}.
Proof.
  rewrite (oracle_phase_kickback_marks_zero_with_a_sign [0; 1; 2; 3]%nat 4%nat).
  - reflexivity.
  - cbn. intros [H|[H|[H|[H|[]]]]]; discriminate H.
Defined.

(** X13: [my_oracle] applied to [my_predicate] leaves the auxiliary qubit
    in [|0>] with the sign -1 exactly on the inputs the predicate accepts. *)
Theorem my_oracle_marks_the_predicate_with_a_sign (x y : Z) :
  WhiteboxSem.my_oracle (WhiteboxSem.my_predicate x y)
  = ((if WhiteboxFuzzing.my_predicate_action x y false then -1 else 1), 0).
Proof.
  unfold WhiteboxSem.my_oracle, WhiteboxSem.my_predicate,
    WhiteboxSem.prep_minus, WhiteboxSem.prep_minus_inverse,
    WhiteboxFuzzing.my_predicate_action.
  destruct ((x + y <? 9) && ((x * y) mod 4 =? 1))%Z; cbn [xorb].
  - rewrite kickback_flip. cbn [fst snd]. apply amp_eq; lra.
  - rewrite kickback_idle. reflexivity.
Qed.

End Oracles.

(** *** The predicates of [whitebox_fuzzing.qmod] on numbers *)

Lemma product_is_1_mod_4 (x y : Z) :
  ((x * y) mod 4 = 1 <->
   (x mod 4 = 1 /\ y mod 4 = 1) \/ (x mod 4 = 3 /\ y mod 4 = 3))%Z.
Proof.
  rewrite Z.mul_mod by lia.
  pose proof (Z.mod_pos_bound x 4 ltac:(lia)) as Hx.
  pose proof (Z.mod_pos_bound y 4 ltac:(lia)) as Hy.
  set (a := (x mod 4)%Z) in *. set (b := (y mod 4)%Z) in *.
  assert (Ha : (a = 0 \/ a = 1 \/ a = 2 \/ a = 3)%Z) by lia.
  assert (Hb : (b = 0 \/ b = 1 \/ b = 2 \/ b = 3)%Z) by lia.
  destruct Ha as [-> | [-> | [-> | ->]]]; destruct Hb as [-> | [-> | [-> | ->]]];
    cbn; split; intros H; try lia; try discriminate H.
Qed.

(** X14: [my_predicate] is its own inverse, flips its result exactly when
    [x + y < 9] and [x], [y] are both 1 or both 3 modulo 4, and on the two
    6-bit registers of [main] it accepts exactly (1,1), (1,5), (3,3), (5,1). *)
Theorem my_predicate_flips_on_odd_pairs_below_nine :
  (forall x y res,
     WhiteboxFuzzing.my_predicate_action x y
       (WhiteboxFuzzing.my_predicate_action x y res) = res) /\
  (forall x y res,
     WhiteboxFuzzing.my_predicate_action x y res = negb res <->
     (x + y < 9 /\
      ((x mod 4 = 1 /\ y mod 4 = 1) \/ (x mod 4 = 3 /\ y mod 4 = 3)))%Z) /\
  WhiteboxSem.marked = [(1, 1); (1, 5); (3, 3); (5, 1)]%Z.
Proof.
  split; [|split].
  - intros x y res. unfold WhiteboxFuzzing.my_predicate_action.
    destruct ((x + y <? 9) && ((x * y) mod 4 =? 1))%Z; destruct res; reflexivity.
  - intros x y res. rewrite <- product_is_1_mod_4.
    unfold WhiteboxFuzzing.my_predicate_action.
    destruct (Z.ltb_spec (x + y) 9) as [Hlt|Hge];
      destruct (Z.eqb_spec ((x * y) mod 4) 1) as [He|Hne];
      cbn [andb]; destruct res; cbn [xorb negb]; split; intros Hyp;
      try reflexivity; try discriminate Hyp; try (split; assumption);
      destruct Hyp as [Hyp1 Hyp2]; try lia; contradiction.
  - vm_compute. reflexivity.
Qed.

(** X15: [zero_predicate] flips [res] exactly when [x] and [y] are both 0,
    and its second bind gives [x] and [y] back unchanged. *)
Theorem zero_predicate_flips_only_at_zero_and_restores_its_inputs
        (x_len x y : Z) (res : bool) :
  (0 <= x_len)%Z -> (0 <= x < 2 ^ x_len)%Z -> (0 <= y)%Z ->
  WhiteboxSem.zero_predicate x_len x y res
  = (x, y, if ((x =? 0) && (y =? 0))%Z then negb res else res).
Proof.
  intros Hn Hx Hy. unfold WhiteboxSem.zero_predicate.
  assert (Hp : (0 < 2 ^ x_len)%Z) by (apply Z.pow_pos_nonneg; lia).
  assert (Hmod : ((x + 2 ^ x_len * y) mod 2 ^ x_len = x)%Z).
  { rewrite Z.mul_comm, Z.mod_add by lia. apply Z.mod_small. exact Hx. }
  assert (Hdiv : ((x + 2 ^ x_len * y) / 2 ^ x_len = y)%Z).
  { rewrite Z.mul_comm, Z.div_add by lia. rewrite Z.div_small by exact Hx. lia. }
  rewrite Hmod, Hdiv. do 2 f_equal.
  destruct (Z.eqb_spec x 0) as [->|Hx0]; destruct (Z.eqb_spec y 0) as [->|Hy0];
    cbn [andb].
  - rewrite Z.mul_0_r. reflexivity.
  - destruct (Z.eqb_spec (0 + 2 ^ x_len * y) 0) as [E|_]; [nia | reflexivity].
  - destruct (Z.eqb_spec (x + 2 ^ x_len * 0) 0) as [E|_]; [lia | reflexivity].
  - destruct (Z.eqb_spec (x + 2 ^ x_len * y) 0) as [E|_]; [nia | reflexivity].
Qed.

Lemma zero_predicate_flips_only_at_zero_and_restores_its_inputs_witness :
  WhiteboxSem.zero_predicate 6 0 0 false = (0, 0, true)%Z /\
  WhiteboxSem.zero_predicate 6 5 63 false = (5, 63, false)%Z.
Proof.
  split.
  - apply (zero_predicate_flips_only_at_zero_and_restores_its_inputs 6 0 0 false); lia.
  - apply (zero_predicate_flips_only_at_zero_and_restores_its_inputs 6 5 63 false); lia.
Defined.

(** *** Wiring of the QMCI quantum functions *)

Lemma my_grover_operator_calls (g : QMCI.Globals) (state : Sdk.qvar) :
  (1 <= List.length state)%nat ->
  QMCI.my_grover_operator g state =
  Some (state,
        [Sdk.bind [state] [firstn 1 state; skipn 1 state]]
        ++ QMCI.good_state_oracle (firstn 1 state)
        ++ [Sdk.within_apply
              [Sdk.invert (QMCI.state_loading g (skipn 1 state) (firstn 1 state))]
              (QMCI.zero_oracle (skipn 1 state) (firstn 1 state))]
        ++ [Sdk.U (Sdk.Lit 0) (Sdk.Lit 0) (Sdk.Lit 0) Sdk.NpPi (firstn 1 state)]
        ++ [Sdk.bind [firstn 1 state; skipn 1 state] [state]]).
Proof.
  intros HL. unfold QMCI.my_grover_operator.
  rewrite (grover_split_ok state HL).
  destruct state as [|w0 rest]; [cbn in HL; lia|].
  cbn [firstn skipn].
  unfold Sdk.bind_wires. cbn [concat app]. rewrite app_nil_r.
  cbn [Sdk.deal]. rewrite Nat.leb_refl.
  replace (S (List.length rest)) with (List.length (w0 :: rest)) by reflexivity.
  rewrite skipn_all, firstn_all. cbn [Sdk.deal]. reflexivity.
Qed.

Lemma in_firstn_or_skipn (n : nat) (l : list nat) (w : nat) :
  In w (firstn n l) \/ In w (skipn n l) <-> In w l.
Proof.
  rewrite <- in_app_iff, firstn_skipn. reflexivity.
Qed.

(** X16: when [my_grover_operator] succeeds it hands back the register it
    was given, and the wires its calls mention are exactly the wires of that
    register. *)
Theorem my_grover_operator_stays_inside_its_register
        (g : QMCI.Globals) (state state' : Sdk.qvar) (calls : list Sdk.call) :
  QMCI.my_grover_operator g state = Some (state', calls) ->
  state' = state /\
  forall w, In w (flat_map Wiring.wires calls) <-> In w state.
Proof.
  intros Hrun.
  assert (HL : (1 <= List.length state)%nat).
  { destruct (le_lt_dec 1 (List.length state)) as [H|H]; [exact H|].
    unfold QMCI.my_grover_operator in Hrun.
    rewrite (grover_split_ill_defined state H) in Hrun. discriminate Hrun. }
  rewrite (my_grover_operator_calls g state HL) in Hrun.
  injection Hrun as <- <-.
  split; [reflexivity|].
  intros w.
  pose proof (in_firstn_or_skipn 1 state w) as Hfs.
  unfold QMCI.good_state_oracle, QMCI.zero_oracle, QMCI.prepare_minus,
    QMCI.state_loading, QMCI.load_probabilities, QMCI.amplitude_loading.
  cbn [app flat_map Wiring.wires concat].
  rewrite ?app_nil_r. rewrite !in_app_iff.
  tauto.
Qed.

Lemma my_grover_operator_stays_inside_its_register_witness :
  exists calls, QMCI.my_grover_operator QMCI.notebook_globals [7; 8; 9]%nat
                = Some ([7; 8; 9]%nat, calls) /\
                In 8%nat (flat_map Wiring.wires calls) /\
                ~ In 3%nat (flat_map Wiring.wires calls).
Proof.
  destruct (QMCI.my_grover_operator QMCI.notebook_globals [7; 8; 9]%nat)
    as [[state' calls]|] eqn:E; [|discriminate E].
  destruct (my_grover_operator_stays_inside_its_register _ _ _ _ E) as [-> H].
  exists calls. split; [reflexivity|]. split.
  - apply H. cbn. right; left; reflexivity.
  - intros Hin. apply H in Hin. cbn in Hin.
    destruct Hin as [F|[F|[F|[]]]]; discriminate F.
Defined.

Lemma deal_whole (l : Sdk.qvar) : Sdk.deal l [List.length l] = Some [l].
Proof.
  cbn [Sdk.deal]. rewrite Nat.leb_refl, skipn_all, firstn_all. reflexivity.
Qed.

Lemma allocate_ok (n : Z) (next : nat) :
  (1 <= n)%Z ->
  Wiring.allocate n next = Some (seq next (Z.to_nat n), (next + Z.to_nat n)%nat).
Proof.
  intros Hn. unfold Wiring.allocate.
  destruct (Z.leb_spec 0 n) as [_|H]; [reflexivity | lia].
Qed.

(** X17: for every [sp_num_qubits >= 1] the [main] of cell 7 is
    well-wired: [io] has [sp_num_qubits] wires, [ind] one, the split inside
    [my_grover_operator] recovers exactly the [ind] and [io] that [main]
    joined, and [inplace_prepare_state] gets [2 ^ |io|] probabilities. *)
Theorem main_registers_fit_the_probabilities (sp_num_qubits : Z) :
  (1 <= sp_num_qubits)%Z ->
  exists io ind state calls,
    Wiring.main (Wiring.globals_for sp_num_qubits) = Some (io, ind, state, calls) /\
    Z.of_nat (List.length io) = sp_num_qubits /\
    List.length ind = 1%nat /\
    state = (ind ++ io)%list /\
    QMCI.grover_split state = Some (ind, io) /\
    Z.of_nat (List.length (QMCI.g_probabilities (Wiring.globals_for sp_num_qubits)))
      = (2 ^ Z.of_nat (List.length io))%Z /\
    In (Sdk.inplace_prepare_state
          (QMCISizes.probabilities_for sp_num_qubits) 0 io)
       (QMCI.state_loading (Wiring.globals_for sp_num_qubits) io ind).
Proof.
  intros Hsp.
  set (n := Z.to_nat sp_num_qubits).
  assert (Hn : (1 <= n)%nat) by lia.
  exists (seq 0 n), [n], ([n] ++ seq 0 n)%list. eexists.
  assert (Hlen : List.length ([n] ++ seq 0 n) = S n)
    by (cbn [app List.length]; rewrite length_seq; reflexivity).
  assert (HL : (1 <= List.length ([n] ++ seq 0 n))%nat) by (rewrite Hlen; lia).
  split.
  { unfold Wiring.main. cbn [Wiring.globals_for QMCI.g_sp_num_qubits].
    rewrite (allocate_ok sp_num_qubits 0 Hsp). fold n.
    rewrite (allocate_ok 1 (0 + n)) by lia.
    change (Z.to_nat 1) with 1%nat. cbn [seq Nat.add].
    unfold Sdk.bind_wires. cbn [concat]. rewrite app_nil_r.
    change [(List.length [n] + List.length (seq 0 n))%nat]
      with [List.length ([n] ++ seq 0 n)].
    rewrite deal_whole.
    rewrite (my_grover_operator_calls _ _ HL). reflexivity. }
  split; [rewrite length_seq; lia|].
  split; [reflexivity|].
  split; [reflexivity|].
  split.
  { rewrite (grover_split_ok _ HL). reflexivity. }
  split.
  { cbn [Wiring.globals_for QMCI.g_probabilities].
    destruct (probabilities_length sp_num_qubits Hsp) as [-> ->].
    rewrite length_seq. f_equal. lia. }
  unfold QMCI.state_loading, QMCI.load_probabilities.
  cbn [Wiring.globals_for QMCI.g_probabilities]. left. reflexivity.
Qed.

Lemma main_registers_fit_the_probabilities_witness :
  exists io ind state calls,
    Wiring.main (Wiring.globals_for 4) = Some (io, ind, state, calls) /\
    Z.of_nat (List.length io) = 4%Z /\
    Z.of_nat (List.length (QMCI.g_probabilities (Wiring.globals_for 4)))
      = (2 ^ Z.of_nat (List.length io))%Z.
Proof.
  destruct (main_registers_fit_the_probabilities 4)
    as (io & ind & state & calls & H1 & H2 & _ & _ & _ & H3 & _).
  - lia.
  - exists io, ind, state, calls. split; [exact H1|]. split; [exact H2 | exact H3].
Defined.

(** *** The usage examples *)

(** X18: the diagonal of [HAMILTONIAN] at the basis state [s] is [s / 4],
    so every eigenphase is a multiple of [2 ^ - QPE_RESOLUTION] in [0, 1). *)
Theorem hamiltonian_diagonal_is_the_state_over_four :
  Forall (fun state =>
            match QPEFlexible.energy QPEFlexible.HAMILTONIAN
                                     (QPEFlexible.bits_of state) with
            | Some e => (e == inject_Z state / inject_Z (2 ^ QPEFlexible.QPE_RESOLUTION))%Q
            | None => False
            end)
         [0; 1; 2; 3]%Z /\
  (forall b1 b0,
     exists k, (0 <= k < 2 ^ QPEFlexible.QPE_RESOLUTION)%Z /\
       match QPEFlexible.energy QPEFlexible.HAMILTONIAN [b1; b0] with
       | Some e => (e == inject_Z k / inject_Z (2 ^ QPEFlexible.QPE_RESOLUTION))%Q
       | None => False
       end).
Proof.
  split.
  - repeat apply Forall_cons; [..|apply Forall_nil]; reflexivity.
  - intros [|] [|].
    + exists 3%Z. split; [cbn; lia | reflexivity].
    + exists 2%Z. split; [cbn; lia | reflexivity].
    + exists 1%Z. split; [cbn; lia | reflexivity].
    + exists 0%Z. split; [cbn; lia | reflexivity].
Qed.

Lemma x_value_range (var_size : Z) (k : nat) :
  (0 <= var_size)%Z -> (k < Z.to_nat (2 ^ var_size))%nat ->
  (0 <= inject_Z (Z.of_nat k) / inject_Z (2 ^ var_size))%Q /\
  (inject_Z (Z.of_nat k) / inject_Z (2 ^ var_size) < 1)%Q.
Proof.
  intros Hn Hk.
  assert (Hp : (0 < 2 ^ var_size)%Z) by (apply Z.pow_pos_nonneg; lia).
  assert (HpQ : (0 < inject_Z (2 ^ var_size))%Q) by (unfold Qlt; cbn; lia).
  split.
  - apply Qle_shift_div_l; [exact HpQ|]. rewrite Qmult_0_l. unfold Qle; cbn. lia.
  - apply Qlt_shift_div_r; [exact HpQ|]. rewrite Qmult_1_l. unfold Qlt; cbn. lia.
Qed.

Lemma square_below_one (x : Q) :
  (0 <= x)%Q -> (x < 1)%Q -> (0 <= AmplitudeLoading.f x)%Q /\ (AmplitudeLoading.f x < 1)%Q.
Proof.
  intros H0 H1. unfold AmplitudeLoading.f.
  change (x ^ 2)%Q with (x * x)%Q.
  split.
  - apply Qmult_le_0_compat; exact H0.
  - apply Qle_lt_trans with (y := (1 * x)%Q).
    + apply Qmult_le_compat_r; [apply Qlt_le_weak; exact H1 | exact H0].
    + rewrite Qmult_1_l. exact H1.
Qed.

(** X19: for every value [x] an unsigned register of [var_size] fraction
    bits can hold, [x] and [x**2] lie in [0, 1) and the loaded amplitudes
    [(sqrt(1 - f(x)^2), f(x))] have unit norm. *)
Theorem loaded_function_stays_below_one (var_size : Z) :
  (0 <= var_size)%Z ->
  Forall (fun x => (0 <= x)%Q /\ (x < 1)%Q /\
                   (0 <= AmplitudeLoading.f x)%Q /\ (AmplitudeLoading.f x < 1)%Q /\
                   (fst (AmplitudeLoading.loaded x) * fst (AmplitudeLoading.loaded x)
                    + snd (AmplitudeLoading.loaded x) * snd (AmplitudeLoading.loaded x)
                    = 1)%R)
         (AmplitudeLoading.x_values var_size).
Proof.
  intros Hn. apply Forall_forall. intros x Hx.
  unfold AmplitudeLoading.x_values in Hx. apply in_map_iff in Hx.
  destruct Hx as (k & <- & Hk). apply in_seq in Hk.
  destruct (x_value_range var_size k Hn ltac:(lia)) as [H0 H1].
  destruct (square_below_one _ H0 H1) as [F0 F1].
  repeat split; try assumption.
  unfold AmplitudeLoading.loaded. cbn [fst snd].
  set (y := AmplitudeLoading.f _) in *.
  assert (Y0 : (0 <= Q2R y)%R).
  { replace 0%R with (Q2R 0) by (unfold Q2R; cbn; lra). apply Qle_Rle. exact F0. }
  assert (Y1 : (Q2R y < 1)%R).
  { replace 1%R with (Q2R 1) by (unfold Q2R; cbn; lra). apply Qlt_Rlt. exact F1. }
  rewrite sqrt_sqrt by nra. lra.
Qed.

Lemma loaded_function_stays_below_one_witness :
  Forall (fun x => (AmplitudeLoading.f x < 1)%Q)
         (AmplitudeLoading.x_values AmplitudeLoading.VAR_SIZE).
Proof.
  pose proof (loaded_function_stays_below_one AmplitudeLoading.VAR_SIZE
                ltac:(unfold AmplitudeLoading.VAR_SIZE; lia)) as H.
  apply Forall_forall. intros x Hx.
  pose proof (proj1 (Forall_forall _ _) H x Hx) as (_ & _ & _ & H1 & _). exact H1.
Defined.
